(** * logrus-graylog-http-hook: a model of graylog-hook.go

    The hook turns a logrus entry into a [GraylogMessage], serialises it
    with [json.Marshal], counts it in a [sync.WaitGroup], and hands the
    bytes over a buffered channel to one background goroutine that posts
    them to Graylog, retrying every ten seconds.

    The packages the file imports are modelled in modules named after
    them ([time], [logrus], [path], [sync], [json]); the declarations of
    graylog-hook.go itself follow, under their own names. *)

From stdpp Require Import gmap strings list fin_maps.
From Equations Require Import Equations.
From Stdlib Require Import ZArith Lia Ascii.

#[local] Set Warnings "-register-all".
#[local] Open Scope Z_scope.

(** ** Imported packages *)

Module time.
(** A [time.Time] is an instant, counted in nanoseconds from the zero
    Time (January 1, year 1, 00:00:00 UTC).  The zone and the monotonic
    reading play no part in the hook. *)
Definition Time : Type := Z.

(** [time.Duration] counts nanoseconds. *)
Definition Duration : Type := Z.
Definition Second : Duration := 1000000000.

(** First instant of year 0 and first instant of year 10000:
    [Time.MarshalJSON] refuses a year outside 0..9999. *)
Definition minJSON : Time := -31622400 * Second.
Definition endJSON : Time := 315537897600 * Second.
Definition yearInRange (t : Time) : bool :=
  (minJSON <=? t) && (t <? endJSON).
End time.

(** Dynamic values held by an [interface{}]: the ones a log field or an
    extra field can carry.  [VChan] and [VFunc] stand for the kinds
    encoding/json has no encoding for.  Floating-point numbers are left
    out. *)
Inductive value : Type :=
| VNil
| VBool (b : bool)
| VInt (n : Z)
| VString (s : string)
| VTime (t : time.Time)
| VSlice (l : list value)
| VMap (m : gmap string value)
| VChan
| VFunc.

Module logrus.
(** [type Level uint32] *)
Definition Level : Type := Z.
Definition PanicLevel : Level := 0.
Definition FatalLevel : Level := 1.
Definition ErrorLevel : Level := 2.
Definition WarnLevel : Level := 3.
Definition InfoLevel : Level := 4.
Definition DebugLevel : Level := 5.
Definition TraceLevel : Level := 6.

(** [var AllLevels = []Level{...}], as logrus declares it since the
    trace level exists (v1.2.0). *)
Definition AllLevels : list Level :=
  [PanicLevel; FatalLevel; ErrorLevel; WarnLevel; InfoLevel; DebugLevel;
   TraceLevel].

(** The fields of [logrus.Entry] a hook can read. *)
Module Entry.
Record t : Type := {
  Data : gmap string value;
  Time : time.Time;
  Level : Level;
  Message : string
}.
End Entry.
End logrus.

Module path.
Definition slash : ascii := "/"%char.

Fixpoint stripLeading (l : list ascii) : list ascii :=
  match l with
  | c :: l' => if decide (c = slash) then stripLeading l' else l
  | [] => []
  end.

Fixpoint takeElement (l : list ascii) : list ascii :=
  match l with
  | c :: l' => if decide (c = slash) then [] else c :: takeElement l'
  | [] => []
  end.

(** [path.Base]: the last element of the path, trailing slashes
    removed; "." for the empty path, "/" for a path of slashes only.
    The path is scanned from its end, so the list is reversed first. *)
Definition Base (p : string) : string :=
  if decide (p = "") then "."
  else
    let last := rev (takeElement (stripLeading (rev (String.list_ascii_of_string p)))) in
    if decide (last = []) then "/" else String.string_of_list_ascii last.
End path.

Module sync.
(** The counter of a [sync.WaitGroup]. *)
Definition WaitGroup : Type := Z.

(** [wg.Add(delta)] panics when the counter would become negative. *)
Definition Add (delta : Z) (wg : WaitGroup) : option WaitGroup :=
  let v := wg + delta in
  if v <? 0 then None else Some v.

Definition Done (wg : WaitGroup) : option WaitGroup := Add (-1) wg.

(** [wg.Wait()] returns once the counter is zero. *)
Definition WaitReturns (wg : WaitGroup) : bool := wg =? 0.
End sync.

(** A JSON document.  [JTime t] is the JSON string in which
    [Time.MarshalJSON] writes the instant [t] (RFC 3339); its text is not
    spelled out.  An object is a finite map: member order is not
    modelled. *)
Inductive JSON : Type :=
| JNull
| JBool (b : bool)
| JNum (n : Z)
| JStr (s : string)
| JTime (t : time.Time)
| JArr (l : list JSON)
| JObj (m : gmap string JSON).

(** Go's [(value, error)] results.  The two errors the hook can meet:
    [os.Hostname] failing and [json.Marshal] failing (which of
    encoding/json's error types it is, is not told apart). *)
Inductive error : Type :=
| HostnameError
| MarshalError.

Inductive result (A : Type) : Type :=
| Ok (a : A)
| Err (e : error).
Arguments Ok {A} a.
Arguments Err {A} e.

Module json.
(** [Time.MarshalJSON] *)
Definition marshalTime (t : time.Time) : option JSON :=
  if time.yearInRange t then Some (JTime t) else None.

(** Every value of a map must encode; the keys are kept. *)
Definition marshalMap {A} (f : A → option JSON) (m : gmap string A)
  : option (gmap string JSON) :=
  map_fold (λ k v acc, r ← acc; j ← f v; Some (<[k:=j]> r)) (Some ∅) m.

(** The encoding of an [interface{}] value. *)
Fixpoint marshalValue (v : value) : option JSON :=
  match v with
  | VNil => Some JNull
  | VBool b => Some (JBool b)
  | VInt n => Some (JNum n)
  | VString s => Some (JStr s)
  | VTime t => marshalTime t
  | VSlice l => JArr <$> mapM marshalValue l
  | VMap m => JObj <$> marshalMap marshalValue m
  | VChan | VFunc => None
  end.


(** A member under the [omitempty] option: [None] when it is left out,
    which is when a string has length zero, a number is zero, a map has
    length zero.  The outer [option] of [omitemptyMap] and [structTime]
    is the failure of the encoding. *)
Definition omitemptyString (s : string) : option JSON :=
  if decide (s = "") then None else Some (JStr s).

Definition omitemptyInt (n : Z) : option JSON :=
  if decide (n = 0) then None else Some (JNum n).

Definition omitemptyMap (m : gmap string value) : option (option JSON) :=
  if decide (m = ∅) then Some None
  else jm ← marshalMap marshalValue m; Some (Some (JObj jm)).

(** A struct has no empty value: on a [time.Time] field the option
    changes nothing, the member is always written. *)
Definition structTime (t : time.Time) : option (option JSON) :=
  j ← marshalTime t; Some (Some j).

(** Writing a member into the object under construction. *)
Definition put (k : string) (x : option JSON) (o : gmap string JSON)
  : gmap string JSON :=
  match x with
  | Some j => <[k := j]> o
  | None => o
  end.

Definition orMarshalError {A} (o : option A) : result A :=
  match o with
  | Some a => Ok a
  | None => Err MarshalError
  end.




End json.

Module http.
(** The one setting of the client the hook itself chooses. *)
Record Client : Type := {
  InsecureSkipVerify : bool
}.

Record Request : Type := {
  Method : string;
  URL : string;
  Body : JSON
}.

(** What [client.Do] gives back: an error, or a response with whatever
    status code the server chose. *)
Inductive DoResult : Type :=
| TransportError
| Response (StatusCode : Z).

(** The world outside the process: whether an address parses as a URL,
    and what the network answers to the request sent at a given
    iteration of the retry loop. *)
Record Net : Type := {
  urlParses : string → bool;
  roundTrip : Z → Request → DoResult
}.

(** [http.NewRequest]: the method is fixed and valid in the hook, so only
    the address can make it fail. *)
Definition NewRequest (net : Net) (method url : string) (body : JSON)
  : option Request :=
  if urlParses net url
  then Some {| Method := method; URL := url; Body := body |}
  else None.

Definition Do (net : Net) (c : Client) (i : Z) (req : Request) : DoResult :=
  roundTrip net i req.
End http.

(** ** graylog-hook.go *)

(** [messageBytes]: the bytes [json.Marshal] returns, identified with the
    document they spell. *)
Definition payload : Type := JSON.

(** [chan []byte] with a buffer: capacity and queued elements, oldest
    first. *)
Module chan.
Record t : Type := {
  cap : Z;
  queue : list payload
}.

Definition make (size : Z) : t := {| cap := size; queue := [] |}.

(** [c <- x] when there is room in the buffer; [None] when the sender has
    to wait. *)
Definition send (c : t) (x : payload) : option t :=
  if Z.of_nat (length (queue c)) <? cap c
  then Some {| cap := cap c; queue := queue c ++ [x] |}
  else None.

(** [<-c] when the buffer holds an element; [None] when the receiver has
    to wait. *)
Definition recv (c : t) : option (payload * t) :=
  match queue c with
  | x :: q => Some (x, {| cap := cap c; queue := q |})
  | [] => None
  end.
End chan.

(** [var BufSize uint = 8192] *)
Definition BufSize : Z := 8192.

Module GraylogMessage.
Record t : Type := {
  Version : string;
  Host : string;
  Short : string;
  Full : string;
  TimeUnix : time.Time;
  Level : Z;
  Facility : string;
  File : string;
  Line : Z;
  Extra : gmap string value;
  LogFields : gmap string value
}.
End GraylogMessage.

Module GraylogHook.
Record t : Type := {
  graylogAddress : string;
  hostname : string;
  facility : string;
  extra : gmap string value;
  retries : Z;
  buf : chan.t;
  wg : sync.WaitGroup;
  httpClient : http.Client;
  Level : logrus.Level
}.

Definition set_wg (w : sync.WaitGroup) (h : t) : t :=
  {| graylogAddress := graylogAddress h; hostname := hostname h;
     facility := facility h; extra := extra h; retries := retries h;
     buf := buf h; wg := w; httpClient := httpClient h; Level := Level h |}.

Definition set_buf (b : chan.t) (h : t) : t :=
  {| graylogAddress := graylogAddress h; hostname := hostname h;
     facility := facility h; extra := extra h; retries := retries h;
     buf := b; wg := wg h; httpClient := httpClient h; Level := Level h |}.
End GraylogHook.

(** [json.Marshal] on a [GraylogMessage]: the members in the order of the
    struct, each under the name and with the [omitempty] of its tag. *)
Definition Marshal (m : GraylogMessage.t) : result payload :=
  json.orMarshalError (
    let o := json.put "version"
               (json.omitemptyString (GraylogMessage.Version m)) ∅ in
    let o := json.put "host"
               (json.omitemptyString (GraylogMessage.Host m)) o in
    let o := json.put "short_message"
               (json.omitemptyString (GraylogMessage.Short m)) o in
    let o := json.put "full_message"
               (json.omitemptyString (GraylogMessage.Full m)) o in
    timestamp ← json.structTime (GraylogMessage.TimeUnix m);
    let o := json.put "timestamp" timestamp o in
    let o := json.put "level"
               (json.omitemptyInt (GraylogMessage.Level m)) o in
    let o := json.put "facility"
               (json.omitemptyString (GraylogMessage.Facility m)) o in
    let o := json.put "file"
               (json.omitemptyString (GraylogMessage.File m)) o in
    let o := json.put "line"
               (json.omitemptyInt (GraylogMessage.Line m)) o in
    ext ← json.omitemptyMap (GraylogMessage.Extra m);
    let o := json.put "extra" ext o in
    fields ← json.omitemptyMap (GraylogMessage.LogFields m);
    let o := json.put "log_fields" fields o in
    Some (JObj o)).


(** The member names the struct tags declare. *)
Definition memberNames : gset string :=
  {[ "version"; "host"; "short_message"; "full_message"; "timestamp";
     "level"; "facility"; "file"; "line"; "extra"; "log_fields" ]}.

(** What the process reads from its surroundings when the hook is made:
    [os.Hostname()], [os.Args[0]] and the current value of [BufSize]. *)
Record process : Type := {
  osHostname : result string;
  osArgs0 : string;
  bufSize : Z
}.

(** [NewGraylogHook].  The goroutine it starts, [go hook.fire()], is the
    worker of the system below. *)
Definition NewGraylogHook (ps : process) (graylogAddress : string)
  (retries : Z) (extra : gmap string value) (httpClient : option http.Client)
  : result GraylogHook.t :=
  match osHostname ps with
  | Err err => Err err
  | Ok host =>
      let facility := path.Base (osArgs0 ps) in
      let httpClient :=
        match httpClient with
        | None => {| http.InsecureSkipVerify := true |}
        | Some c => c
        end in
      Ok {| GraylogHook.graylogAddress := graylogAddress;
            GraylogHook.hostname := host;
            GraylogHook.facility := facility;
            GraylogHook.extra := extra;
            GraylogHook.retries := retries;
            GraylogHook.buf := chan.make (bufSize ps);
            GraylogHook.wg := 0;
            GraylogHook.httpClient := httpClient;
            GraylogHook.Level := logrus.DebugLevel |}
  end.

(** What the hook does that can be seen from outside. *)
Inductive event : Type :=
| EvPrintln (data : gmap string value)
| EvNewRequest (url : string) (ok : bool)
| EvDo (req : http.Request) (res : http.DoResult)
| EvSleep (d : time.Duration)
| EvBodyClose.

(** The calls a [defer] statement has put aside, last one first. *)
Inductive deferredCall : Type :=
| DeferWgDone
| DeferBodyClose.

Record frame : Type := {
  trace : list event;
  defers : list deferredCall
}.

Definition emit (es : list event) (fr : frame) : frame :=
  {| trace := trace fr ++ es; defers := defers fr |}.

Definition defer (d : deferredCall) (fr : frame) : frame :=
  {| trace := trace fr; defers := d :: defers fr |}.

(** The [for i := 0; i < hook.retries; i++] loop of [sendEntry], from
    iteration [i] on. *)
Equations? retryLoop (net : http.Net) (hook : GraylogHook.t)
  (messageBytes : payload) (i : Z) (fr : frame) : frame
  by wf (Z.to_nat (GraylogHook.retries hook - i)) lt :=
retryLoop net hook messageBytes i fr
  with decide (i < GraylogHook.retries hook) := {
  | right _ => fr
  | left _
      with http.NewRequest net "POST" (GraylogHook.graylogAddress hook)
             messageBytes := {
      | None =>
          retryLoop net hook messageBytes (i + 1)
            (emit [EvNewRequest (GraylogHook.graylogAddress hook) false;
                   EvSleep (10 * time.Second)] fr)
      | Some reqPost
          with http.Do net (GraylogHook.httpClient hook) i reqPost := {
          | http.TransportError =>
              retryLoop net hook messageBytes (i + 1)
                (emit [EvNewRequest (GraylogHook.graylogAddress hook) true;
                       EvDo reqPost http.TransportError;
                       EvSleep (10 * time.Second)] fr)
          | http.Response code =>
              defer DeferBodyClose
                (emit [EvNewRequest (GraylogHook.graylogAddress hook) true;
                       EvDo reqPost (http.Response code)] fr) } } }.
Proof. all: lia. Defined.

(** The deferred calls run when the function returns; [None] is a panic
    of [wg.Done()]. *)
Fixpoint runDefers (ds : list deferredCall) (hook : GraylogHook.t)
  (tr : list event) : option (GraylogHook.t * list event) :=
  match ds with
  | [] => Some (hook, tr)
  | DeferBodyClose :: ds' => runDefers ds' hook (tr ++ [EvBodyClose])
  | DeferWgDone :: ds' =>
      w ← sync.Done (GraylogHook.wg hook);
      runDefers ds' (GraylogHook.set_wg w hook) tr
  end.

Definition sendEntry (net : http.Net) (hook : GraylogHook.t)
  (messageBytes : payload) : option (GraylogHook.t * list event) :=
  let fr :=
    retryLoop net hook messageBytes 0
      {| trace := []; defers := [DeferWgDone] |} in
  runDefers (defers fr) hook (trace fr).

(** [int32(logrusLevel)]: a [uint32] read as a signed 32-bit number. *)
Definition setLevel (logrusLevel : logrus.Level) : Z :=
  let u := logrusLevel mod 2 ^ 32 in
  if u <? 2 ^ 31 then u else u - 2 ^ 32.

(** The message [Fire] builds; [now] is what [time.Now()] returns. *)
Definition grMessage (now : time.Time) (hook : GraylogHook.t)
  (entry : logrus.Entry.t) : GraylogMessage.t :=
  {| GraylogMessage.Version := "1.0";
     GraylogMessage.Host := GraylogHook.hostname hook;
     GraylogMessage.Short := logrus.Entry.Message entry;
     GraylogMessage.Full := "";
     GraylogMessage.TimeUnix := now;
     GraylogMessage.Level := setLevel (logrus.Entry.Level entry);
     GraylogMessage.Facility := GraylogHook.facility hook;
     GraylogMessage.File := "";
     GraylogMessage.Line := 0;
     GraylogMessage.Extra := GraylogHook.extra hook;
     GraylogMessage.LogFields := logrus.Entry.Data entry |}.

(** How a call of [Fire] ends when nothing else runs meanwhile: it
    returns an error or nil, or it waits at [hook.buf <- messageBytes]
    because the buffer is full, or [wg.Add] panics. *)
Inductive FireOutcome : Type :=
| FireReturned (err : option error)
| FireBlocked (messageBytes : payload)
| FirePanicked.

Record FireRun : Type := {
  printed : list event;
  hookAfter : GraylogHook.t;
  outcome : FireOutcome
}.

Definition Fire (now : time.Time) (hook : GraylogHook.t)
  (entry : logrus.Entry.t) : FireRun :=
  let out := [EvPrintln (logrus.Entry.Data entry)] in
  match Marshal (grMessage now hook entry) with
  | Err err =>
      {| printed := out; hookAfter := hook;
         outcome := FireReturned (Some err) |}
  | Ok messageBytes =>
      match sync.Add 1 (GraylogHook.wg hook) with
      | None =>
          {| printed := out; hookAfter := hook; outcome := FirePanicked |}
      | Some w =>
          let hook1 := GraylogHook.set_wg w hook in
          match chan.send (GraylogHook.buf hook1) messageBytes with
          | Some b =>
              {| printed := out; hookAfter := GraylogHook.set_buf b hook1;
                 outcome := FireReturned None |}
          | None =>
              {| printed := out; hookAfter := hook1;
                 outcome := FireBlocked messageBytes |}
          end
      end
  end.

(** The payload a call of [Fire] has put on the channel, or waits to
    put there. *)
Definition firedPayload (run : FireRun) : option payload :=
  match outcome run with
  | FireReturned None => last (chan.queue (GraylogHook.buf (hookAfter run)))
  | FireBlocked messageBytes => Some messageBytes
  | _ => None
  end.

(** [Flush] is [hook.wg.Wait()]: whether the call can return in the
    present state. *)
Definition Flush (hook : GraylogHook.t) : bool :=
  sync.WaitReturns (GraylogHook.wg hook).

(** The [range logrus.AllLevels] loop of [Levels]. *)
Fixpoint LevelsLoop (all : list logrus.Level) (hookLevel : logrus.Level)
  (levels : list logrus.Level) : list logrus.Level :=
  match all with
  | [] => levels
  | level :: rest =>
      LevelsLoop rest hookLevel
        (if level <=? hookLevel then levels ++ [level] else levels)
  end.

Definition Levels (hook : GraylogHook.t) : list logrus.Level :=
  LevelsLoop logrus.AllLevels (GraylogHook.Level hook) [].

(** ** The hook at work: callers of [Fire], the channel, the goroutine
    running [fire], and a caller of [Flush] *)

(** [sending] holds the payloads of the calls of [Fire] that are past
    [hook.wg.Add(1)] and not yet through [hook.buf <- messageBytes].
    [worker] is where the goroutine running [fire] stands: [None] at
    [<-hook.buf], [Some p] inside [hook.sendEntry(p)].  [accepted] lists
    the payloads of the calls of [Fire] that returned nil, [completed]
    those whose [sendEntry] returned, both oldest first. *)
Record System : Type := {
  hook : GraylogHook.t;
  sending : list payload;
  worker : option payload;
  accepted : list payload;
  completed : list payload;
  log : list event
}.

(** The state [NewGraylogHook] leaves behind. *)
Definition start (h : GraylogHook.t) : System :=
  {| hook := h; sending := []; worker := None; accepted := [];
     completed := []; log := [] |}.

(** One step of one goroutine. *)
Inductive step : System → System → Prop :=
| step_Fire_error now entry err s :
    Marshal (grMessage now (hook s) entry) = Err err →
    step s
      {| hook := hook s; sending := sending s; worker := worker s;
         accepted := accepted s; completed := completed s;
         log := log s ++ [EvPrintln (logrus.Entry.Data entry)] |}
| step_Fire_Add now entry messageBytes w s :
    Marshal (grMessage now (hook s) entry) = Ok messageBytes →
    sync.Add 1 (GraylogHook.wg (hook s)) = Some w →
    step s
      {| hook := GraylogHook.set_wg w (hook s);
         sending := messageBytes :: sending s; worker := worker s;
         accepted := accepted s; completed := completed s;
         log := log s ++ [EvPrintln (logrus.Entry.Data entry)] |}
| step_Fire_send before messageBytes after b s :
    sending s = before ++ messageBytes :: after →
    chan.send (GraylogHook.buf (hook s)) messageBytes = Some b →
    step s
      {| hook := GraylogHook.set_buf b (hook s);
         sending := before ++ after; worker := worker s;
         accepted := accepted s ++ [messageBytes];
         completed := completed s; log := log s |}
| step_Fire_handoff before messageBytes after s :
    sending s = before ++ messageBytes :: after →
    worker s = None →
    chan.queue (GraylogHook.buf (hook s)) = [] →
    step s
      {| hook := hook s; sending := before ++ after;
         worker := Some messageBytes;
         accepted := accepted s ++ [messageBytes];
         completed := completed s; log := log s |}
| step_fire_recv messageBytes b s :
    worker s = None →
    chan.recv (GraylogHook.buf (hook s)) = Some (messageBytes, b) →
    step s
      {| hook := GraylogHook.set_buf b (hook s); sending := sending s;
         worker := Some messageBytes; accepted := accepted s;
         completed := completed s; log := log s |}
| step_fire_sendEntry net messageBytes hook' tr s :
    worker s = Some messageBytes →
    sendEntry net (hook s) messageBytes = Some (hook', tr) →
    step s
      {| hook := hook'; sending := sending s; worker := None;
         accepted := accepted s;
         completed := completed s ++ [messageBytes]; log := log s ++ tr |}.

(** The payloads counted by the WaitGroup: waiting to be sent, queued,
    or being delivered. *)
Definition pending (s : System) : list payload :=
  option_list (worker s) ++ chan.queue (GraylogHook.buf (hook s))
    ++ sending s.

(** Counting the delivery attempts and the pauses of a trace. *)
Definition isAttempt (e : event) : bool :=
  match e with
  | EvNewRequest _ _ => true
  | _ => false
  end.

Definition isSend (e : event) : bool :=
  match e with
  | EvDo _ _ => true
  | _ => false
  end.

Definition attempts (tr : list event) : nat := length (filter isAttempt tr).
Definition sends (tr : list event) : nat := length (filter isSend tr).

Definition isPause (e : event) : bool :=
  match e with
  | EvSleep _ => true
  | _ => false
  end.

Definition isResponse (e : event) : bool :=
  match e with
  | EvDo _ (http.Response _) => true
  | EvBodyClose => true
  | _ => false
  end.

Definition pauses (tr : list event) : list event := filter isPause tr.

(** What a failed attempt leaves in the trace. *)
Definition failedAttempt (net : http.Net) (hook : GraylogHook.t)
  (messageBytes : payload) : list event :=
  match http.NewRequest net "POST" (GraylogHook.graylogAddress hook)
          messageBytes with
  | None =>
      [EvNewRequest (GraylogHook.graylogAddress hook) false;
       EvSleep (10 * time.Second)]
  | Some reqPost =>
      [EvNewRequest (GraylogHook.graylogAddress hook) true;
       EvDo reqPost http.TransportError;
       EvSleep (10 * time.Second)]
  end.

(** Iteration [i] fails: the request cannot be built, or sending it ends
    in a transport error. *)
Definition attemptFails (net : http.Net) (hook : GraylogHook.t)
  (messageBytes : payload) (i : Z) : Prop :=
  match http.NewRequest net "POST" (GraylogHook.graylogAddress hook)
          messageBytes with
  | None => True
  | Some reqPost =>
      http.Do net (GraylogHook.httpClient hook) i reqPost
      = http.TransportError
  end.


(** What holds in every state the hook can reach: the WaitGroup counts
    the payloads under way, and the accepted payloads are, in order, the
    completed ones, the one being delivered and the queued ones. *)
Definition accounted (s : System) : Prop :=
  GraylogHook.wg (hook s) = Z.of_nat (length (pending s)) ∧
  accepted s =
    completed s ++ option_list (worker s)
      ++ chan.queue (GraylogHook.buf (hook s)).

(** ** Sample data *)

Definition sampleProcess : process :=
  {| osHostname := Ok "web-1"; osArgs0 := "/usr/local/bin/app";
     bufSize := BufSize |}.

Definition sampleHook (retries : Z) : GraylogHook.t :=
  {| GraylogHook.graylogAddress := "http://graylog.sdc.com:12201/gelf";
     GraylogHook.hostname := "web-1";
     GraylogHook.facility := "app";
     GraylogHook.extra := {[ "env" := VString "prod" ]};
     GraylogHook.retries := retries;
     GraylogHook.buf := chan.make BufSize;
     GraylogHook.wg := 0;
     GraylogHook.httpClient := {| http.InsecureSkipVerify := true |};
     GraylogHook.Level := logrus.DebugLevel |}.

(** A network on which every send ends in a transport error. *)
Definition netDown : http.Net :=
  {| http.urlParses := λ _, true;
     http.roundTrip := λ _ _, http.TransportError |}.

(** A network that answers the second send (iteration 1) with a 500. *)
Definition netSecondTry : http.Net :=
  {| http.urlParses := λ _, true;
     http.roundTrip :=
       λ i _, if i =? 1 then http.Response 500 else http.TransportError |}.

Definition sampleEntry : logrus.Entry.t :=
  {| logrus.Entry.Data := {[ "user" := VString "ann"; "tries" := VInt 3 ]};
     logrus.Entry.Time := 63800000000 * time.Second;
     logrus.Entry.Level := logrus.InfoLevel;
     logrus.Entry.Message := "started" |}.

(** An entry with a field encoding/json cannot encode. *)
Definition chanEntry : logrus.Entry.t :=
  {| logrus.Entry.Data := {[ "done" := VChan ]};
     logrus.Entry.Time := 63800000000 * time.Second;
     logrus.Entry.Level := logrus.InfoLevel;
     logrus.Entry.Message := "started" |}.


(** The payload [Fire] makes of [sampleEntry] on [sampleHook] at the
    instant [sampleNow], seven seconds after the entry's own time. *)
Definition sampleNow : time.Time := 63800000007 * time.Second.

Definition samplePayload : payload :=
  JObj
    (<["log_fields" := JObj {[ "user" := JStr "ann"; "tries" := JNum 3 ]}]>
     (<["extra" := JObj {[ "env" := JStr "prod" ]}]>
      (<["facility" := JStr "app"]>
       (<["level" := JNum 4]>
        (<["timestamp" := JTime sampleNow]>
         (<["short_message" := JStr "started"]>
          (<["host" := JStr "web-1"]>
           {[ "version" := JStr "1.0" ]}))))))).

(** The hook after one call of [Fire] has returned nil and before the
    goroutine running [fire] has taken the payload. *)
Definition afterOneFire : System :=
  {| hook :=
       GraylogHook.set_buf
         {| chan.cap := BufSize; chan.queue := [samplePayload] |}
         (GraylogHook.set_wg 1 (sampleHook 3));
     sending := []; worker := None; accepted := [samplePayload];
     completed := []; log := [EvPrintln (logrus.Entry.Data sampleEntry)] |}.

(** A hook whose WaitGroup counts one payload, as when [fire] has just
    taken that payload from the channel. *)
Definition countedHook (retries : Z) : GraylogHook.t :=
  GraylogHook.set_wg 1 (sampleHook retries).

Definition sampleRequest : http.Request :=
  {| http.Method := "POST";
     http.URL := "http://graylog.sdc.com:12201/gelf";
     http.Body := samplePayload |}.

(** ** More to say about a run *)

(** The time a trace spends in [time.Sleep]. *)
Definition slept (tr : list event) : time.Duration :=
  foldr (λ e acc, match e with EvSleep d => d + acc | _ => acc end) 0 tr.

(** What the attempt that gets a response leaves in the trace, the
    deferred closing of the body included. *)
Definition answeredAttempt (hook : GraylogHook.t) (reqPost : http.Request)
  (code : Z) : list event :=
  [EvNewRequest (GraylogHook.graylogAddress hook) true;
   EvDo reqPost (http.Response code); EvBodyClose].

(** The request [sendEntry] builds for a payload. *)
Definition postRequest (hook : GraylogHook.t) (messageBytes : payload)
  : http.Request :=
  {| http.Method := "POST"; http.URL := GraylogHook.graylogAddress hook;
     http.Body := messageBytes |}.

(** Two hooks with the same unexported settings: all the fields but the
    queued payloads, the counter and the exported [Level]. *)
Definition sameSettings (h h' : GraylogHook.t) : Prop :=
  GraylogHook.graylogAddress h' = GraylogHook.graylogAddress h ∧
  GraylogHook.hostname h' = GraylogHook.hostname h ∧
  GraylogHook.facility h' = GraylogHook.facility h ∧
  GraylogHook.extra h' = GraylogHook.extra h ∧
  GraylogHook.retries h' = GraylogHook.retries h ∧
  GraylogHook.httpClient h' = GraylogHook.httpClient h ∧
  chan.cap (GraylogHook.buf h') = chan.cap (GraylogHook.buf h).

(** The hook while [sendEntry] works on the one payload accepted so
    far. *)
Definition deliveringOne : System :=
  {| hook :=
       GraylogHook.set_buf {| chan.cap := BufSize; chan.queue := [] |}
         (GraylogHook.set_wg 1 (sampleHook 3));
     sending := []; worker := Some samplePayload;
     accepted := [samplePayload]; completed := [];
     log := [EvPrintln (logrus.Entry.Data sampleEntry)] |}.

(** A network whose addresses never parse. *)
Definition netBadAddress : http.Net :=
  {| http.urlParses := λ _, false;
     http.roundTrip := λ _ _, http.Response 200 |}.

(** An entry with nothing in it, at the panic level, and the payload
    [Fire] makes of it on [sampleHook] when the clock reads the zero
    Time. *)
Definition bareEntry : logrus.Entry.t :=
  {| logrus.Entry.Data := ∅; logrus.Entry.Time := 0;
     logrus.Entry.Level := logrus.PanicLevel;
     logrus.Entry.Message := "" |}.

Definition barePayload : payload :=
  JObj (<["extra" := JObj {[ "env" := JStr "prod" ]}]>
        (<["facility" := JStr "app"]>
         (<["timestamp" := JTime 0]>
          (<["host" := JStr "web-1"]>
           {[ "version" := JStr "1.0" ]})))).



(** [hook.Level = level]: the one field of a hook a user can assign. *)
Definition withLevel (level : logrus.Level) (h : GraylogHook.t)
  : GraylogHook.t :=
  {| GraylogHook.graylogAddress := GraylogHook.graylogAddress h;
     GraylogHook.hostname := GraylogHook.hostname h;
     GraylogHook.facility := GraylogHook.facility h;
     GraylogHook.extra := GraylogHook.extra h;
     GraylogHook.retries := GraylogHook.retries h;
     GraylogHook.buf := GraylogHook.buf h; GraylogHook.wg := GraylogHook.wg h;
     GraylogHook.httpClient := GraylogHook.httpClient h;
     GraylogHook.Level := level |}.

(** The hook after [sendEntry] has returned for that payload, on a
    network that answered the second send. *)
Definition afterDelivery : System :=
  {| hook := sampleHook 3;
     sending := []; worker := None;
     accepted := [samplePayload]; completed := [samplePayload];
     log := [EvPrintln (logrus.Entry.Data sampleEntry)]
            ++ failedAttempt netSecondTry (countedHook 3) samplePayload
            ++ answeredAttempt (countedHook 3) sampleRequest 500 |}.

(** The hook with one call of [Fire] past [wg.Add(1)] and not yet
    through its channel send, while [sendEntry] works on an earlier
    payload. *)
Definition oneWaiting : System :=
  {| hook :=
       GraylogHook.set_buf {| chan.cap := BufSize; chan.queue := [] |}
         (GraylogHook.set_wg 2 (sampleHook 3));
     sending := [barePayload]; worker := Some samplePayload;
     accepted := [samplePayload]; completed := [];
     log := [EvPrintln (logrus.Entry.Data sampleEntry);
             EvPrintln (logrus.Entry.Data bareEntry)] |}.

(** * Properties *)

(** ** Imported packages on examples *)

Example path_Base_bin : path.Base "/usr/local/bin/app" = "app".
Proof. reflexivity. Qed.

Example path_Base_trailing : path.Base "a/b//" = "b".
Proof. reflexivity. Qed.

Example path_Base_slashes : path.Base "///" = "/".
Proof. reflexivity. Qed.

Example path_Base_empty : path.Base "" = ".".
Proof. reflexivity. Qed.

Example setLevel_info : setLevel logrus.InfoLevel = 4.
Proof. reflexivity. Qed.

Example setLevel_wraps : setLevel 4294967295 = -1.
Proof. reflexivity. Qed.

Example marshalTime_year_10000 : json.marshalTime time.endJSON = None.
Proof. reflexivity. Qed.

(** ** Values and their encoding *)




Lemma marshalMap_lookup {A} (f : A → option JSON) (m : gmap string A) jm k :
  json.marshalMap f m = Some jm →
  match m !! k with
  | Some v => ∃ j, f v = Some j ∧ jm !! k = Some j
  | None => jm !! k = None
  end.
Proof.
  unfold json.marshalMap. revert jm.
  apply (map_fold_weak_ind
    (λ r (m : gmap string A), ∀ jm, r = Some jm →
       match m !! k with
       | Some v => ∃ j, f v = Some j ∧ jm !! k = Some j
       | None => jm !! k = None
       end)).
  - intros jm [= <-]. by rewrite !lookup_empty.
  - intros i x m' r Hi IH jm Hjm.
    destruct r as [r'|]; simpl in Hjm; [|done].
    destruct (f x) as [j|] eqn:Hfx; simpl in Hjm; [|done].
    injection Hjm as <-. specialize (IH _ eq_refl).
    destruct (decide (i = k)) as [->|Hne].
    + rewrite !lookup_insert_eq. eauto.
    + by rewrite !lookup_insert_ne.
Qed.

Lemma marshalMap_dom {A} (f : A → option JSON) (m : gmap string A) jm :
  json.marshalMap f m = Some jm → dom jm = dom m.
Proof.
  intros Hm. apply set_eq. intros k. rewrite !elem_of_dom.
  pose proof (marshalMap_lookup f m jm k Hm) as Hk.
  destruct (m !! k) as [v|].
  - destruct Hk as (j & _ & ->). split; eauto.
  - rewrite Hk. split; intros [? ?]; done.
Qed.





(** ** The members of a serialized message *)

Lemma lookup_put_eq k x o : o !! k = None → json.put k x o !! k = x.
Proof. intros Ho. destruct x; simpl; [apply lookup_insert_eq|done]. Qed.

Lemma lookup_put_ne k k' x o : k ≠ k' → json.put k x o !! k' = o !! k'.
Proof. intros Hne. destruct x; simpl; [by apply lookup_insert_ne|done]. Qed.

Lemma dom_put k x o : dom (json.put k x o) ⊆ {[k]} ∪ dom o.
Proof. destruct x; simpl; [rewrite dom_insert_L|]; set_solver. Qed.

Ltac lookup_put :=
  repeat first
    [ rewrite lookup_put_ne by done
    | rewrite lookup_insert_ne by done
    | rewrite lookup_insert_eq
    | rewrite lookup_put_eq
    | apply lookup_empty ].

Lemma Marshal_inv m p :
  Marshal m = Ok p →
  ∃ o ext fields,
    p = JObj o ∧
    json.omitemptyMap (GraylogMessage.Extra m) = Some ext ∧
    json.omitemptyMap (GraylogMessage.LogFields m) = Some fields ∧
    time.yearInRange (GraylogMessage.TimeUnix m) = true ∧
    o !! "version" = json.omitemptyString (GraylogMessage.Version m) ∧
    o !! "host" = json.omitemptyString (GraylogMessage.Host m) ∧
    o !! "short_message" = json.omitemptyString (GraylogMessage.Short m) ∧
    o !! "full_message" = json.omitemptyString (GraylogMessage.Full m) ∧
    o !! "timestamp" = Some (JTime (GraylogMessage.TimeUnix m)) ∧
    o !! "level" = json.omitemptyInt (GraylogMessage.Level m) ∧
    o !! "facility" = json.omitemptyString (GraylogMessage.Facility m) ∧
    o !! "file" = json.omitemptyString (GraylogMessage.File m) ∧
    o !! "line" = json.omitemptyInt (GraylogMessage.Line m) ∧
    o !! "extra" = ext ∧
    o !! "log_fields" = fields ∧
    dom o ⊆ memberNames.
Proof.
  unfold Marshal, json.orMarshalError, json.structTime, json.marshalTime.
  intros H.
  destruct (time.yearInRange _) eqn:Ht; simpl in H; [|done].
  destruct (json.omitemptyMap (GraylogMessage.Extra m)) as [ext|] eqn:He;
    simpl in H; [|done].
  destruct (json.omitemptyMap (GraylogMessage.LogFields m)) as [fields|] eqn:Hf;
    simpl in H; [|done].
  injection H as <-. eexists _, ext, fields.
  split; [done|]. split; [done|]. split; [done|]. split; [done|].
  repeat split; try (lookup_put; done).
  change (<["timestamp":=?j]> ?o) with (json.put "timestamp" (Some j) o).
  repeat (etrans; [apply dom_put|]; apply union_least; [unfold memberNames; set_solver|]).
  set_solver.
Qed.






Lemma send_queue c x c' :
  chan.send c x = Some c' →
  chan.queue c' = chan.queue c ++ [x] ∧ chan.cap c' = chan.cap c.
Proof.
  unfold chan.send. case_match; [|done]. by intros [= <-].
Qed.

Lemma Add_Some delta w w' : sync.Add delta w = Some w' → w' = w + delta.
Proof. unfold sync.Add. simpl. case_match; [done|]. by intros [= <-]. Qed.

Lemma firedPayload_Marshal now hook entry p :
  firedPayload (Fire now hook entry) = Some p ↔
  Marshal (grMessage now hook entry) = Ok p ∧ 0 ≤ GraylogHook.wg hook + 1.
Proof.
  unfold firedPayload, Fire.
  destruct (Marshal (grMessage now hook entry)) as [q|err]; simpl.
  2: { split; [done|]. by intros [? _]. }
  unfold sync.Add. simpl.
  destruct (Z.ltb_spec (GraylogHook.wg hook + 1) 0); simpl.
  { split; [done|]. intros [_ ?]. lia. }
  destruct (chan.send _ q) as [b|] eqn:Hb; simpl.
  - apply send_queue in Hb as [-> _]. simpl. rewrite last_snoc.
    split; [intros [= <-]|intros [[= <-] _]]; done.
  - split; [intros [= <-]|intros [[= <-] _]]; done.
Qed.

(** ** The retry loop of [sendEntry] *)

Example sendEntry_netDown :
  sendEntry netDown (countedHook 2) JNull
  = Some (sampleHook 2,
          [EvNewRequest "http://graylog.sdc.com:12201/gelf" true;
           EvDo {| http.Method := "POST";
                   http.URL := "http://graylog.sdc.com:12201/gelf";
                   http.Body := JNull |} http.TransportError;
           EvSleep 10000000000;
           EvNewRequest "http://graylog.sdc.com:12201/gelf" true;
           EvDo {| http.Method := "POST";
                   http.URL := "http://graylog.sdc.com:12201/gelf";
                   http.Body := JNull |} http.TransportError;
           EvSleep 10000000000]).
Proof. reflexivity. Qed.

Example sendEntry_netSecondTry :
  sendEntry netSecondTry (countedHook 5) JNull
  = Some (sampleHook 5,
          [EvNewRequest "http://graylog.sdc.com:12201/gelf" true;
           EvDo {| http.Method := "POST";
                   http.URL := "http://graylog.sdc.com:12201/gelf";
                   http.Body := JNull |} http.TransportError;
           EvSleep 10000000000;
           EvNewRequest "http://graylog.sdc.com:12201/gelf" true;
           EvDo {| http.Method := "POST";
                   http.URL := "http://graylog.sdc.com:12201/gelf";
                   http.Body := JNull |} (http.Response 500);
           EvBodyClose]).
Proof. reflexivity. Qed.

Example sendEntry_uncounted_panics :
  sendEntry netDown (sampleHook 2) JNull = None.
Proof. reflexivity. Qed.

Section RetryLoop.
Context (net : http.Net) (hook : GraylogHook.t) (messageBytes : payload).

Lemma retryLoop_step i fr :
  retryLoop net hook messageBytes i fr =
  if decide (i < GraylogHook.retries hook) then
    match http.NewRequest net "POST" (GraylogHook.graylogAddress hook)
            messageBytes with
    | None =>
        retryLoop net hook messageBytes (i + 1)
          (emit [EvNewRequest (GraylogHook.graylogAddress hook) false;
                 EvSleep (10 * time.Second)] fr)
    | Some reqPost =>
        match http.Do net (GraylogHook.httpClient hook) i reqPost with
        | http.TransportError =>
            retryLoop net hook messageBytes (i + 1)
              (emit [EvNewRequest (GraylogHook.graylogAddress hook) true;
                     EvDo reqPost http.TransportError;
                     EvSleep (10 * time.Second)] fr)
        | http.Response code =>
            defer DeferBodyClose
              (emit [EvNewRequest (GraylogHook.graylogAddress hook) true;
                     EvDo reqPost (http.Response code)] fr)
        end
    end
  else fr.
Proof.
  simp retryLoop.
  destruct (decide (i < GraylogHook.retries hook)); simpl; [|done].
  destruct (http.NewRequest _ _ _ _); simpl; simp retryLoop; [|done].
  destruct (http.Do _ _ _ _); simpl; simp retryLoop; done.
Qed.

Lemma emit_emit es1 es2 fr : emit es2 (emit es1 fr) = emit (es1 ++ es2) fr.
Proof. unfold emit. simpl. by rewrite app_assoc. Qed.

Lemma emit_nil fr : emit [] fr = fr.
Proof. destruct fr. unfold emit. simpl. by rewrite app_nil_r. Qed.

(** While the attempts fail the loop goes on: [n] failed attempts from
    iteration [i] leave [n] copies of the failed attempt in the trace and
    hand over to iteration [i + n]. *)
Lemma retryLoop_failures (n : nat) i fr :
  i + Z.of_nat n ≤ GraylogHook.retries hook →
  (∀ j, i ≤ j < i + Z.of_nat n → attemptFails net hook messageBytes j) →
  retryLoop net hook messageBytes i fr =
  retryLoop net hook messageBytes (i + Z.of_nat n)
    (emit (concat (replicate n (failedAttempt net hook messageBytes))) fr).
Proof.
  revert i fr. induction n as [|n IH]; intros i fr Hle Hfail.
  - simpl. by rewrite Z.add_0_r, emit_nil.
  - rewrite retryLoop_step.
    destruct (decide (i < GraylogHook.retries hook)) as [_|]; [|lia].
    assert (attemptFails net hook messageBytes i) as Hi by (apply Hfail; lia).
    unfold attemptFails in Hi. simpl replicate. simpl concat.
    unfold failedAttempt at 1.
    destruct (http.NewRequest _ _ _ _) as [reqPost|].
    + rewrite Hi, IH, emit_emit; [|lia|intros; apply Hfail; lia].
      f_equal. lia.
    + rewrite IH, emit_emit; [|lia|intros; apply Hfail; lia].
      f_equal. lia.
Qed.

Lemma retryLoop_exit i fr :
  GraylogHook.retries hook ≤ i → retryLoop net hook messageBytes i fr = fr.
Proof. intros. rewrite retryLoop_step. case_decide; [lia|done]. Qed.

(** The loop adds at most the closing of the response body to the
    deferred calls. *)
Lemma retryLoop_defers i fr :
  defers (retryLoop net hook messageBytes i fr) = defers fr ∨
  defers (retryLoop net hook messageBytes i fr) = DeferBodyClose :: defers fr.
Proof.
  remember (Z.to_nat (GraylogHook.retries hook - i)) as n eqn:Hn.
  revert i fr Hn. induction n as [|n IH]; intros i fr Hn.
  - rewrite retryLoop_exit by lia. by left.
  - rewrite retryLoop_step. case_decide; [|by left].
    destruct (http.NewRequest _ _ _ _) as [reqPost|].
    + destruct (http.Do _ _ _ _).
      * apply (IH (i + 1) (emit _ fr)). lia.
      * by right.
    + apply (IH (i + 1) (emit _ fr)). lia.
Qed.

Lemma Done_Some w : 0 < w → sync.Done w = Some (w - 1).
Proof.
  intros. unfold sync.Done, sync.Add. simpl.
  destruct (Z.ltb_spec (w + -1) 0); [lia|done].
Qed.

Lemma Done_None w : w ≤ 0 → sync.Done w = None.
Proof.
  intros. unfold sync.Done, sync.Add. simpl.
  destruct (Z.ltb_spec (w + -1) 0); [done|lia].
Qed.

(** [sendEntry] always returns, and decrements the counter by one,
    whatever the network does; it panics only on a counter that is not
    positive. *)
Lemma sendEntry_Done :
  0 < GraylogHook.wg hook →
  ∃ tr, sendEntry net hook messageBytes
        = Some (GraylogHook.set_wg (GraylogHook.wg hook - 1) hook, tr).
Proof.
  intros Hwg. unfold sendEntry.
  destruct (retryLoop_defers 0
              {| trace := []; defers := [DeferWgDone] |}) as [-> | ->];
    simpl; rewrite Done_Some by done; simpl; eauto.
Qed.

Lemma sendEntry_inv hook' tr :
  sendEntry net hook messageBytes = Some (hook', tr) →
  0 < GraylogHook.wg hook ∧
  hook' = GraylogHook.set_wg (GraylogHook.wg hook - 1) hook.
Proof.
  intros Hs. destruct (decide (0 < GraylogHook.wg hook)) as [Hwg|Hwg].
  - split; [done|].
    destruct (sendEntry_Done Hwg) as [tr' Htr'].
    congruence.
  - exfalso. unfold sendEntry in Hs.
    destruct (retryLoop_defers 0
                {| trace := []; defers := [DeferWgDone] |}) as [Hd | Hd];
      rewrite Hd in Hs; simpl in Hs; rewrite Done_None in Hs by lia; done.
Qed.

Lemma failedAttempt_attempts :
  attempts (failedAttempt net hook messageBytes) = 1%nat.
Proof. unfold failedAttempt. by case_match. Qed.

Lemma failedAttempt_pauses :
  pauses (failedAttempt net hook messageBytes) = [EvSleep (10 * time.Second)].
Proof. unfold failedAttempt. by case_match. Qed.

Lemma attempts_app tr1 tr2 :
  attempts (tr1 ++ tr2) = (attempts tr1 + attempts tr2)%nat.
Proof. unfold attempts. by rewrite filter_app, length_app. Qed.

Lemma attempts_blocks n block :
  attempts block = 1%nat → attempts (concat (replicate n block)) = n.
Proof.
  intros Hb. induction n as [|n IH]; [done|].
  simpl. rewrite attempts_app, Hb, IH. done.
Qed.

Lemma pauses_blocks n block e :
  pauses block = [e] → pauses (concat (replicate n block)) = replicate n e.
Proof.
  intros Hb. induction n as [|n IH]; [done|].
  simpl. unfold pauses in *. by rewrite filter_app, Hb, IH.
Qed.

Lemma responses_blocks n block :
  filter isResponse block = [] →
  filter isResponse (concat (replicate n block)) = [].
Proof.
  intros Hb. induction n as [|n IH]; [done|].
  simpl. by rewrite filter_app, Hb, IH.
Qed.

(** C1. When every one of the R > 0 attempts on a payload fails, at
    building the request or at sending it, [sendEntry] makes exactly R
    attempts, pauses ten seconds after each of them, receives no
    response, leaves the channel as it was (the payload is gone) and
    takes one off the WaitGroup counter. *)
Theorem sendEntry_exhausts_retries R :
  GraylogHook.retries hook = R →
  0 < R →
  0 < GraylogHook.wg hook →
  (∀ i, 0 ≤ i < R → attemptFails net hook messageBytes i) →
  ∃ tr,
    sendEntry net hook messageBytes
    = Some (GraylogHook.set_wg (GraylogHook.wg hook - 1) hook, tr) ∧
    tr = concat (replicate (Z.to_nat R)
                   (failedAttempt net hook messageBytes)) ∧
    attempts tr = Z.to_nat R ∧
    pauses tr = replicate (Z.to_nat R) (EvSleep (10 * time.Second)) ∧
    filter isResponse tr = [].
Proof.
  intros HR Hpos Hwg Hfail. eexists. split; [|split; [reflexivity|]].
  - unfold sendEntry.
    rewrite (retryLoop_failures (Z.to_nat R) 0).
    + rewrite retryLoop_exit by lia. simpl.
      by rewrite Done_Some.
    + lia.
    + intros j Hj. apply Hfail. lia.
  - split; [|split].
    + apply attempts_blocks, failedAttempt_attempts.
    + apply pauses_blocks, failedAttempt_pauses.
    + apply responses_blocks. unfold failedAttempt. by case_match.
Qed.

(** C3. With a retry count of zero [sendEntry] builds no request, sends
    nothing and does not pause: its trace is empty, and the WaitGroup
    counter still goes down by one. *)
Theorem sendEntry_zero_retries :
  GraylogHook.retries hook = 0 →
  0 < GraylogHook.wg hook →
  sendEntry net hook messageBytes
  = Some (GraylogHook.set_wg (GraylogHook.wg hook - 1) hook, []).
Proof.
  intros HR Hwg. unfold sendEntry.
  rewrite retryLoop_exit by lia. simpl. by rewrite Done_Some.
Qed.

(** C4. The loop ends with the first attempt whose request is built and
    whose send comes back with a response, whatever the status code:
    after [k] failed attempts and a response at iteration [k], the trace
    holds [k + 1] attempts and nothing after the response but the closing
    of its body. *)
Theorem sendEntry_stops_at_first_response k reqPost code :
  0 ≤ k < GraylogHook.retries hook →
  0 < GraylogHook.wg hook →
  (∀ i, 0 ≤ i < k → attemptFails net hook messageBytes i) →
  http.NewRequest net "POST" (GraylogHook.graylogAddress hook) messageBytes
  = Some reqPost →
  http.Do net (GraylogHook.httpClient hook) k reqPost = http.Response code →
  ∃ tr,
    sendEntry net hook messageBytes
    = Some (GraylogHook.set_wg (GraylogHook.wg hook - 1) hook, tr) ∧
    tr = concat (replicate (Z.to_nat k)
                   (failedAttempt net hook messageBytes))
         ++ [EvNewRequest (GraylogHook.graylogAddress hook) true;
             EvDo reqPost (http.Response code); EvBodyClose] ∧
    attempts tr = S (Z.to_nat k) ∧
    sends tr = S (Z.to_nat k).
Proof.
  intros Hk Hwg Hfail Hreq Hdo. eexists. split; [|split; [reflexivity|]].
  - unfold sendEntry.
    rewrite (retryLoop_failures (Z.to_nat k) 0);
      [|lia|intros j Hj; apply Hfail; lia].
    rewrite retryLoop_step.
    destruct (decide (0 + Z.of_nat (Z.to_nat k) < GraylogHook.retries hook));
      [|lia].
    rewrite Hreq. replace (0 + Z.of_nat (Z.to_nat k)) with k by lia.
    rewrite Hdo. simpl. rewrite Done_Some by done. simpl.
    by rewrite <- app_assoc.
  - split.
    + rewrite attempts_app, attempts_blocks by apply failedAttempt_attempts.
      simpl. unfold attempts. simpl. lia.
    + unfold sends. rewrite filter_app, length_app.
      assert (length (filter isSend (concat (replicate (Z.to_nat k)
                (failedAttempt net hook messageBytes)))) = Z.to_nat k) as ->.
      { induction (Z.to_nat k) as [|n IH]; [done|].
        simpl. rewrite filter_app, length_app, IH.
        unfold failedAttempt. rewrite Hreq. done. }
      simpl. lia.
Qed.

End RetryLoop.

Lemma sendEntry_exhausts_retries_witness :
  GraylogHook.retries (countedHook 3) = 3 ∧
  0 < 3 ∧
  0 < GraylogHook.wg (countedHook 3) ∧
  (∀ i, 0 ≤ i < 3 → attemptFails netDown (countedHook 3) samplePayload i) ∧
  ∃ tr,
    sendEntry netDown (countedHook 3) samplePayload
    = Some (GraylogHook.set_wg (GraylogHook.wg (countedHook 3) - 1)
              (countedHook 3), tr) ∧
    tr = concat (replicate (Z.to_nat 3)
                   (failedAttempt netDown (countedHook 3) samplePayload)) ∧
    attempts tr = Z.to_nat 3 ∧
    pauses tr = replicate (Z.to_nat 3) (EvSleep (10 * time.Second)) ∧
    filter isResponse tr = [].
Proof.
  split; [reflexivity|]. split; [lia|]. split; [reflexivity|].
  split; [intros i _; reflexivity|].
  apply (sendEntry_exhausts_retries netDown (countedHook 3) samplePayload 3).
  - reflexivity.
  - lia.
  - reflexivity.
  - intros i _. reflexivity.
Defined.

Lemma sendEntry_zero_retries_witness :
  GraylogHook.retries (countedHook 0) = 0 ∧
  0 < GraylogHook.wg (countedHook 0) ∧
  sendEntry netDown (countedHook 0) samplePayload
  = Some (GraylogHook.set_wg (GraylogHook.wg (countedHook 0) - 1)
            (countedHook 0), []).
Proof.
  split; [reflexivity|]. split; [reflexivity|].
  apply (sendEntry_zero_retries netDown (countedHook 0) samplePayload).
  - reflexivity.
  - reflexivity.
Defined.

Lemma sendEntry_stops_at_first_response_witness :
  0 ≤ 1 < GraylogHook.retries (countedHook 3) ∧
  0 < GraylogHook.wg (countedHook 3) ∧
  (∀ i, 0 ≤ i < 1 →
        attemptFails netSecondTry (countedHook 3) samplePayload i) ∧
  http.NewRequest netSecondTry "POST"
    (GraylogHook.graylogAddress (countedHook 3)) samplePayload
  = Some sampleRequest ∧
  http.Do netSecondTry (GraylogHook.httpClient (countedHook 3)) 1
    sampleRequest = http.Response 500 ∧
  ∃ tr,
    sendEntry netSecondTry (countedHook 3) samplePayload
    = Some (GraylogHook.set_wg (GraylogHook.wg (countedHook 3) - 1)
              (countedHook 3), tr) ∧
    tr = concat (replicate (Z.to_nat 1)
                   (failedAttempt netSecondTry (countedHook 3) samplePayload))
         ++ [EvNewRequest (GraylogHook.graylogAddress (countedHook 3)) true;
             EvDo sampleRequest (http.Response 500); EvBodyClose] ∧
    attempts tr = S (Z.to_nat 1) ∧
    sends tr = S (Z.to_nat 1).
Proof.
  assert (∀ i, 0 ≤ i < 1 →
            attemptFails netSecondTry (countedHook 3) samplePayload i)
    as Hfail.
  { intros i Hi. assert (i = 0) as -> by lia. reflexivity. }
  split; [split; [lia|reflexivity]|]. split; [reflexivity|].
  split; [exact Hfail|]. split; [reflexivity|]. split; [reflexivity|].
  apply (sendEntry_stops_at_first_response netSecondTry (countedHook 3)
           samplePayload 1 sampleRequest 500).
  - split; [lia|reflexivity].
  - reflexivity.
  - exact Hfail.
  - reflexivity.
  - reflexivity.
Defined.







(** ** What [Fire] hands over *)

Example Fire_sampleEntry :
  Fire sampleNow (sampleHook 3) sampleEntry
  = {| printed := [EvPrintln (logrus.Entry.Data sampleEntry)];
       hookAfter := hook afterOneFire;
       outcome := FireReturned None |}.
Proof. vm_compute. reflexivity. Qed.

Example Fire_unbuffered_waits :
  outcome (Fire sampleNow (GraylogHook.set_buf (chan.make 0) (sampleHook 3))
             sampleEntry)
  = FireBlocked samplePayload.
Proof. vm_compute. reflexivity. Qed.




(** C7. When the message does not serialize, [Fire] returns the error of
    [json.Marshal] and leaves the hook as it was: nothing is put on the
    channel, no caller is left waiting to put something there, and the
    WaitGroup counter keeps its value. *)
Theorem Fire_Marshal_error now hook entry err :
  Marshal (grMessage now hook entry) = Err err →
  outcome (Fire now hook entry) = FireReturned (Some err) ∧
  hookAfter (Fire now hook entry) = hook ∧
  firedPayload (Fire now hook entry) = None ∧
  chan.queue (GraylogHook.buf (hookAfter (Fire now hook entry)))
  = chan.queue (GraylogHook.buf hook) ∧
  GraylogHook.wg (hookAfter (Fire now hook entry)) = GraylogHook.wg hook.
Proof. intros HM. unfold firedPayload, Fire. rewrite HM. done. Qed.

Lemma Fire_Marshal_error_witness :
  Marshal (grMessage sampleNow (sampleHook 3) chanEntry) = Err MarshalError ∧
  outcome (Fire sampleNow (sampleHook 3) chanEntry)
  = FireReturned (Some MarshalError) ∧
  hookAfter (Fire sampleNow (sampleHook 3) chanEntry) = sampleHook 3 ∧
  firedPayload (Fire sampleNow (sampleHook 3) chanEntry) = None ∧
  chan.queue (GraylogHook.buf (hookAfter (Fire sampleNow (sampleHook 3) chanEntry)))
  = chan.queue (GraylogHook.buf (sampleHook 3)) ∧
  GraylogHook.wg (hookAfter (Fire sampleNow (sampleHook 3) chanEntry))
  = GraylogHook.wg (sampleHook 3).
Proof.
  split; [vm_compute; reflexivity|].
  apply (Fire_Marshal_error sampleNow (sampleHook 3) chanEntry MarshalError).
  vm_compute; reflexivity.
Defined.

(** C9. The message [Fire] builds has an empty [Full], and the payload it
    hands over is an object without a full_message member. *)
Theorem Fire_no_full_message now hook entry messageBytes :
  firedPayload (Fire now hook entry) = Some messageBytes →
  GraylogMessage.Full (grMessage now hook entry) = "" ∧
  ∃ o, messageBytes = JObj o ∧ o !! "full_message" = None.
Proof.
  intros [HM _]%firedPayload_Marshal. split; [done|].
  apply Marshal_inv in HM
    as (o & ext & fields & -> & _ & _ & _ & _ & _ & _ & Hfull & _).
  exists o. split; [done|]. by rewrite Hfull.
Qed.

Lemma Fire_no_full_message_witness :
  firedPayload (Fire sampleNow (sampleHook 3) sampleEntry)
  = Some samplePayload ∧
  GraylogMessage.Full (grMessage sampleNow (sampleHook 3) sampleEntry) = "" ∧
  ∃ o, samplePayload = JObj o ∧ o !! "full_message" = None.
Proof.
  split; [vm_compute; reflexivity|].
  apply (Fire_no_full_message sampleNow (sampleHook 3) sampleEntry).
  vm_compute; reflexivity.
Defined.


(** ** Callers, channel and worker together *)

Lemma recv_queue c x c' :
  chan.recv c = Some (x, c') → chan.queue c = x :: chan.queue c'.
Proof. unfold chan.recv. case_match; [done|]. by intros [= <- <-]. Qed.

Lemma accounted_start h : GraylogHook.wg h = 0 →
  chan.queue (GraylogHook.buf h) = [] → accounted (start h).
Proof. intros Hw Hq. unfold accounted, pending. simpl. by rewrite Hw, Hq. Qed.

Lemma accounted_step s s' : accounted s → step s s' → accounted s'.
Proof.
  intros [Hwg Hacc] Hstep. unfold accounted, pending in *.
  destruct Hstep as
    [ now entry err s _
    | now entry p w s _ Hadd
    | before p after b s Hsending Hsend
    | before p after s Hsending Hworker Hqueue
    | p b s Hworker Hrecv
    | net p hook' tr s Hworker Hsend ]; simpl.
  - done.
  - apply Add_Some in Hadd as ->. split; [|done].
    rewrite Hwg. repeat (rewrite ?length_app; simpl). lia.
  - apply send_queue in Hsend as [Hq _]. rewrite Hq. split.
    + rewrite Hwg, Hsending. repeat (rewrite ?length_app; simpl). lia.
    + by rewrite Hacc, !app_assoc.
  - rewrite Hworker, Hqueue in *. simpl in *. split.
    + rewrite Hwg, Hsending. repeat (rewrite ?length_app; simpl). lia.
    + by rewrite Hacc, !app_nil_r.
  - apply recv_queue in Hrecv. rewrite Hworker, Hrecv in *. simpl in *.
    split; [lia|done].
  - apply sendEntry_inv in Hsend as [_ ->]. rewrite Hworker in *.
    simpl in *. split; [lia|]. by rewrite Hacc, <- app_assoc.
Qed.

Lemma accounted_reachable h s :
  GraylogHook.wg h = 0 → chan.queue (GraylogHook.buf h) = [] →
  rtc step (start h) s → accounted s.
Proof.
  intros Hw Hq Hsteps.
  assert (accounted (start h)) as Hstart by by apply accounted_start.
  induction Hsteps as [|s1 s2 s3 Hstep _ IH]; [done|].
  by eapply IH, accounted_step.
Qed.

(** From any accounted state with no call of [Fire] under way the
    goroutine running [fire] can finish what is left: it reaches a state
    where every accepted payload is completed and the counter is zero. *)
Lemma worker_drains (n : nat) s :
  accounted s → sending s = [] →
  length (pending s) = n →
  ∃ s', rtc step s s' ∧ accounted s' ∧ sending s' = [] ∧
        accepted s' = accepted s ∧ completed s' = accepted s ∧
        GraylogHook.wg (hook s') = 0.
Proof.
  revert s. induction (lt_wf n) as [n _ IH]. intros s Hacc Hsending Hn.
  destruct (worker s) as [p|] eqn:Hworker.
  - (* inside sendEntry: let it return *)
    destruct Hacc as [Hwg Hlist].
    destruct (sendEntry_Done netDown (hook s) p) as [tr Htr].
    { rewrite Hwg. unfold pending. rewrite Hworker. simpl. lia. }
    pose proof (step_fire_sendEntry netDown p _ tr s Hworker Htr) as Hstep.
    match type of Hstep with step _ ?t => set (s1 := t) in * end.
    assert (accounted s1) as Hacc1.
    { eapply accounted_step; [|exact Hstep]. by split. }
    destruct (IH (length (pending s1))) with (s := s1)
      as (s' & Hsteps & Hacc' & Hs' & Ha' & Hc' & Hw'); try done.
    { subst n. unfold pending, s1. simpl. rewrite Hworker. simpl. lia. }
    exists s'. split; [by eapply rtc_l|]. done.
  - destruct (chan.queue (GraylogHook.buf (hook s))) as [|p q] eqn:Hq.
    + (* nothing left *)
      exists s. destruct Hacc as [Hwg Hlist]. split; [done|].
      split; [done|]. split; [done|]. split; [done|].
      unfold pending in Hwg. rewrite Hworker, Hq, Hsending in *.
      simpl in *. by rewrite app_nil_r in Hlist.
    + (* take the next payload from the channel *)
      assert (chan.recv (GraylogHook.buf (hook s))
              = Some (p, {| chan.cap := chan.cap (GraylogHook.buf (hook s));
                            chan.queue := q |})) as Hrecv.
      { unfold chan.recv. by rewrite Hq. }
      pose proof (step_fire_recv p _ s Hworker Hrecv) as Hstep.
      match type of Hstep with step _ ?t => set (s1 := t) in * end.
      assert (accounted s1) as Hacc1 by by eapply accounted_step.
      assert (length (pending s1) = n) as Hn1.
      { subst n. unfold pending, s1. simpl. by rewrite Hworker, Hq. }
      (* and let sendEntry return *)
      destruct Hacc1 as [Hwg1 Hlist1].
      destruct (sendEntry_Done netDown (hook s1) p) as [tr Htr].
      { rewrite Hwg1. unfold pending, s1. simpl. lia. }
      pose proof (step_fire_sendEntry netDown p _ tr s1 eq_refl Htr) as Hstep2.
      match type of Hstep2 with step _ ?t => set (s2 := t) in * end.
      assert (accounted s2) as Hacc2.
      { eapply accounted_step; [|exact Hstep2]. by split. }
      destruct (IH (length (pending s2))) with (s := s2)
        as (s' & Hsteps & Hacc' & Hs' & Ha' & Hc' & Hw'); try done.
      { rewrite <- Hn1. unfold pending, s2, s1. simpl. lia. }
      exists s'. split; [|done].
      eapply rtc_l; [exact Hstep|]. by eapply rtc_l.
Qed.

Lemma NewGraylogHook_start ps graylogAddress retries extra httpClient h :
  NewGraylogHook ps graylogAddress retries extra httpClient = Ok h →
  GraylogHook.wg h = 0 ∧ chan.queue (GraylogHook.buf h) = [].
Proof.
  unfold NewGraylogHook. destruct (osHostname ps); [|done].
  by intros [= <-].
Qed.

(** C2. Take any state the hook reaches from its construction in which
    no call of [Fire] is between [wg.Add(1)] and the end of its channel
    send, and let N calls of [Fire] have returned nil.  The WaitGroup
    counter is the number of payloads past [wg.Add(1)] minus the number
    of completed [sendEntry] calls (a payload is counted before it is
    admitted to the channel, and taken off once, when its [sendEntry]
    returns); [Flush] can return exactly when N payloads are completed;
    and the goroutine running [fire] can always get there. *)
Theorem Flush_returns_when_all_completed ps graylogAddress retries extra
    httpClient h0 s N :
  NewGraylogHook ps graylogAddress retries extra httpClient = Ok h0 →
  rtc step (start h0) s →
  sending s = [] →
  length (accepted s) = N →
  accounted s ∧
  GraylogHook.wg (hook s)
  = Z.of_nat (length (sending s)) + Z.of_nat (length (accepted s))
    - Z.of_nat (length (completed s)) ∧
  (Flush (hook s) = true ↔ length (completed s) = N) ∧
  ∃ s', rtc step s s' ∧ Flush (hook s') = true ∧
        accepted s' = accepted s ∧ completed s' = accepted s.
Proof.
  intros [Hw Hq]%NewGraylogHook_start Hreach Hsending HN.
  pose proof (accounted_reachable h0 s Hw Hq Hreach) as Hacc.
  split; [done|]. destruct Hacc as [Hwg Hlist].
  assert (GraylogHook.wg (hook s)
          = Z.of_nat (length (sending s)) + Z.of_nat (length (accepted s))
            - Z.of_nat (length (completed s))) as Hledger.
  { rewrite Hwg, Hlist. unfold pending. rewrite !length_app. lia. }
  split; [done|]. split.
  - unfold Flush, sync.WaitReturns. rewrite Z.eqb_eq, Hledger, Hsending.
    simpl. lia.
  - destruct (worker_drains (length (pending s)) s)
      as (s' & Hsteps & _ & _ & Ha & Hc & Hw'); try done.
    exists s'. split; [done|]. split; [|done].
    unfold Flush, sync.WaitReturns. by rewrite Hw'.
Qed.

Lemma afterOneFire_reachable : rtc step (start (sampleHook 3)) afterOneFire.
Proof.
  eapply rtc_l.
  { apply (step_Fire_Add sampleNow sampleEntry samplePayload 1);
      vm_compute; reflexivity. }
  eapply rtc_l.
  { apply (step_Fire_send [] samplePayload []
             {| chan.cap := BufSize; chan.queue := [samplePayload] |});
      vm_compute; reflexivity. }
  apply rtc_refl.
Defined.

Lemma Flush_returns_when_all_completed_witness :
  NewGraylogHook sampleProcess "http://graylog.sdc.com:12201/gelf" 3
    {[ "env" := VString "prod" ]} None = Ok (sampleHook 3) ∧
  rtc step (start (sampleHook 3)) afterOneFire ∧
  sending afterOneFire = [] ∧
  length (accepted afterOneFire) = 1%nat ∧
  accounted afterOneFire ∧
  GraylogHook.wg (hook afterOneFire)
  = Z.of_nat (length (sending afterOneFire))
    + Z.of_nat (length (accepted afterOneFire))
    - Z.of_nat (length (completed afterOneFire)) ∧
  (Flush (hook afterOneFire) = true ↔ length (completed afterOneFire) = 1%nat) ∧
  ∃ s', rtc step afterOneFire s' ∧ Flush (hook s') = true ∧
        accepted s' = accepted afterOneFire ∧
        completed s' = accepted afterOneFire.
Proof.
  split; [reflexivity|]. split; [exact afterOneFire_reachable|].
  split; [reflexivity|]. split; [reflexivity|].
  apply (Flush_returns_when_all_completed sampleProcess
           "http://graylog.sdc.com:12201/gelf" 3
           {[ "env" := VString "prod" ]} None (sampleHook 3) afterOneFire 1).
  - reflexivity.
  - exact afterOneFire_reachable.
  - reflexivity.
  - reflexivity.
Defined.

(** ** Levels *)

Lemma LevelsLoop_filter all hookLevel levels :
  LevelsLoop all hookLevel levels
  = levels ++ filter (λ level, level ≤ hookLevel) all.
Proof.
  revert levels. induction all as [|level rest IH]; intros levels; simpl.
  - by rewrite app_nil_r.
  - rewrite IH. destruct (Z.leb_spec level hookLevel).
    + rewrite filter_cons_True by done. by rewrite <- app_assoc.
    + rewrite filter_cons_False by lia. done.
Qed.

(** C6. [Levels] returns the members of [logrus.AllLevels] that are at
    most the hook's [Level], in the order of [logrus.AllLevels], and
    nothing else. *)
Theorem Levels_at_most_threshold hook :
  Levels hook
  = filter (λ level, level ≤ GraylogHook.Level hook) logrus.AllLevels ∧
  ∀ level,
    level ∈ Levels hook ↔
    level ∈ logrus.AllLevels ∧ level ≤ GraylogHook.Level hook.
Proof.
  assert (Levels hook
          = filter (λ level, level ≤ GraylogHook.Level hook) logrus.AllLevels)
    as Heq by apply LevelsLoop_filter.
  split; [done|]. intros level. rewrite Heq, list_elem_of_filter. tauto.
Qed.

(** C10, as the code has it.  A hook made by [NewGraylogHook] has [Level]
    set to [logrus.DebugLevel], and [Levels] gives the six levels from
    panic to debug: the trace level is left out. *)
Theorem NewGraylogHook_Levels ps graylogAddress retries extra httpClient h :
  NewGraylogHook ps graylogAddress retries extra httpClient = Ok h →
  GraylogHook.Level h = logrus.DebugLevel ∧
  Levels h
  = [logrus.PanicLevel; logrus.FatalLevel; logrus.ErrorLevel;
     logrus.WarnLevel; logrus.InfoLevel; logrus.DebugLevel].
Proof.
  unfold NewGraylogHook. destruct (osHostname ps); [|done].
  intros [= <-]. done.
Qed.

Lemma NewGraylogHook_Levels_witness :
  NewGraylogHook sampleProcess "http://graylog.sdc.com:12201/gelf" 3
    {[ "env" := VString "prod" ]} None = Ok (sampleHook 3) ∧
  GraylogHook.Level (sampleHook 3) = logrus.DebugLevel ∧
  Levels (sampleHook 3)
  = [logrus.PanicLevel; logrus.FatalLevel; logrus.ErrorLevel;
     logrus.WarnLevel; logrus.InfoLevel; logrus.DebugLevel].
Proof.
  split; [reflexivity|].
  apply (NewGraylogHook_Levels sampleProcess
           "http://graylog.sdc.com:12201/gelf" 3
           {[ "env" := VString "prod" ]} None).
  reflexivity.
Defined.

(** C10 as claimed fails: [logrus.TraceLevel] is a logrus level and a
    fresh hook's [Levels] does not hold it. *)
Lemma fresh_hook_Levels_lacks_trace :
  NewGraylogHook sampleProcess "http://graylog.sdc.com:12201/gelf" 3
    {[ "env" := VString "prod" ]} None = Ok (sampleHook 3) ∧
  logrus.TraceLevel ∈ logrus.AllLevels ∧
  logrus.TraceLevel ∉ Levels (sampleHook 3).
Proof.
  split; [reflexivity|]. split.
  - unfold logrus.AllLevels. set_solver.
  - unfold Levels. rewrite LevelsLoop_filter. simpl app.
    rewrite list_elem_of_filter. intros [Hle _]. simpl in Hle.
    unfold logrus.TraceLevel, logrus.DebugLevel in Hle. lia.
Qed.

(** * Further properties *)

(** ** The settings and the buffer over a run *)

Lemma sameSettings_refl h : sameSettings h h.
Proof. by repeat split. Qed.

Lemma sameSettings_step h s s' :
  sameSettings h (hook s) → step s s' → sameSettings h (hook s').
Proof.
  intros Hs Hstep. unfold sameSettings in *.
  destruct Hstep as
    [ now entry err s _
    | now entry p w s _ Hadd
    | before p after b s Hsending Hsend
    | before p after s Hsending Hworker Hqueue
    | p b s Hworker Hrecv
    | net p hook' tr s Hworker Hsend ]; simpl; try done.
  - apply send_queue in Hsend as [_ ->]. done.
  - unfold chan.recv in Hrecv. destruct (chan.queue _); [done|].
    injection Hrecv as _ <-. done.
  - apply sendEntry_inv in Hsend as [_ ->]. done.
Qed.

Lemma sameSettings_steps h s s' :
  sameSettings h (hook s) → rtc step s s' → sameSettings h (hook s').
Proof.
  intros Hs Hsteps. induction Hsteps as [|s1 s2 s3 Hstep _ IH]; [done|].
  by eapply IH, sameSettings_step.
Qed.

Lemma queue_bounded_step s s' :
  Z.of_nat (length (chan.queue (GraylogHook.buf (hook s))))
    ≤ Z.max 0 (chan.cap (GraylogHook.buf (hook s))) →
  step s s' →
  Z.of_nat (length (chan.queue (GraylogHook.buf (hook s'))))
    ≤ Z.max 0 (chan.cap (GraylogHook.buf (hook s'))).
Proof.
  intros Hb Hstep.
  destruct Hstep as
    [ now entry err s _
    | now entry p w s _ Hadd
    | before p after b s Hsending Hsend
    | before p after s Hsending Hworker Hqueue
    | p b s Hworker Hrecv
    | net p hook' tr s Hworker Hsend ]; simpl; try done.
  - unfold chan.send in Hsend.
    destruct (Z.ltb_spec
                (Z.of_nat (length (chan.queue (GraylogHook.buf (hook s)))))
                (chan.cap (GraylogHook.buf (hook s)))); [|done].
    injection Hsend as <-. simpl. rewrite length_app. simpl. lia.
  - unfold chan.recv in Hrecv.
    destruct (chan.queue (GraylogHook.buf (hook s))) eqn:Hq; [done|].
    injection Hrecv as _ <-. simpl in *. lia.
  - apply sendEntry_inv in Hsend as [_ ->]. done.
Qed.

Lemma queue_bounded_steps s s' :
  Z.of_nat (length (chan.queue (GraylogHook.buf (hook s))))
    ≤ Z.max 0 (chan.cap (GraylogHook.buf (hook s))) →
  rtc step s s' →
  Z.of_nat (length (chan.queue (GraylogHook.buf (hook s'))))
    ≤ Z.max 0 (chan.cap (GraylogHook.buf (hook s'))).
Proof.
  intros Hb Hsteps. induction Hsteps as [|s1 s2 s3 Hstep _ IH]; [done|].
  by eapply IH, queue_bounded_step.
Qed.

Lemma NewGraylogHook_Ok ps graylogAddress retries extra httpClient h :
  NewGraylogHook ps graylogAddress retries extra httpClient = Ok h →
  ∃ host,
    osHostname ps = Ok host ∧
    h = {| GraylogHook.graylogAddress := graylogAddress;
           GraylogHook.hostname := host;
           GraylogHook.facility := path.Base (osArgs0 ps);
           GraylogHook.extra := extra;
           GraylogHook.retries := retries;
           GraylogHook.buf := chan.make (bufSize ps);
           GraylogHook.wg := 0;
           GraylogHook.httpClient :=
             default {| http.InsecureSkipVerify := true |} httpClient;
           GraylogHook.Level := logrus.DebugLevel |}.
Proof.
  unfold NewGraylogHook. destruct (osHostname ps) as [host|]; [|done].
  intros [= <-]. exists host. split; [done|]. by destruct httpClient.
Qed.

Lemma deliveringOne_reachable :
  rtc step (start (sampleHook 3)) deliveringOne.
Proof.
  eapply rtc_r; [exact afterOneFire_reachable|].
  apply (step_fire_recv samplePayload
           {| chan.cap := BufSize; chan.queue := [] |} afterOneFire);
    reflexivity.
Defined.

Lemma afterDelivery_reachable : rtc step (start (sampleHook 3)) afterDelivery.
Proof.
  eapply rtc_r; [exact deliveringOne_reachable|].
  apply (step_fire_sendEntry netSecondTry samplePayload (sampleHook 3)
           (failedAttempt netSecondTry (countedHook 3) samplePayload
            ++ answeredAttempt (countedHook 3) sampleRequest 500)
           deliveringOne); reflexivity.
Defined.

Lemma oneWaiting_reachable : rtc step (start (sampleHook 3)) oneWaiting.
Proof.
  eapply rtc_r; [exact deliveringOne_reachable|].
  apply (step_Fire_Add 0 bareEntry barePayload 2 deliveringOne);
    vm_compute; reflexivity.
Defined.

(** X1. The unexported settings of a hook are those of its construction
    for as long as it runs: the address, retry count and extra fields
    passed to [NewGraylogHook], the host name and the base name of the
    program read then, the client passed (or the one that skips the TLS
    check when none was), and the capacity [BufSize] had. *)
Theorem hook_settings_are_fixed ps graylogAddress retries extra httpClient
    h0 s :
  NewGraylogHook ps graylogAddress retries extra httpClient = Ok h0 →
  rtc step (start h0) s →
  GraylogHook.graylogAddress (hook s) = graylogAddress ∧
  osHostname ps = Ok (GraylogHook.hostname (hook s)) ∧
  GraylogHook.facility (hook s) = path.Base (osArgs0 ps) ∧
  GraylogHook.extra (hook s) = extra ∧
  GraylogHook.retries (hook s) = retries ∧
  GraylogHook.httpClient (hook s)
  = default {| http.InsecureSkipVerify := true |} httpClient ∧
  chan.cap (GraylogHook.buf (hook s)) = bufSize ps.
Proof.
  intros (host & Hhost & ->)%NewGraylogHook_Ok Hsteps.
  pose proof (sameSettings_steps _ _ _ (sameSettings_refl _) Hsteps)
    as (-> & -> & -> & -> & -> & -> & ->).
  done.
Qed.

Lemma hook_settings_are_fixed_witness :
  NewGraylogHook sampleProcess "http://graylog.sdc.com:12201/gelf" 3
    {[ "env" := VString "prod" ]} None = Ok (sampleHook 3) ∧
  rtc step (start (sampleHook 3)) deliveringOne ∧
  GraylogHook.graylogAddress (hook deliveringOne)
  = "http://graylog.sdc.com:12201/gelf" ∧
  osHostname sampleProcess = Ok (GraylogHook.hostname (hook deliveringOne)) ∧
  GraylogHook.facility (hook deliveringOne)
  = path.Base (osArgs0 sampleProcess) ∧
  GraylogHook.extra (hook deliveringOne) = {[ "env" := VString "prod" ]} ∧
  GraylogHook.retries (hook deliveringOne) = 3 ∧
  GraylogHook.httpClient (hook deliveringOne)
  = default {| http.InsecureSkipVerify := true |} None ∧
  chan.cap (GraylogHook.buf (hook deliveringOne)) = bufSize sampleProcess.
Proof.
  split; [reflexivity|]. split; [exact deliveringOne_reachable|].
  apply (hook_settings_are_fixed sampleProcess
           "http://graylog.sdc.com:12201/gelf" 3
           {[ "env" := VString "prod" ]} None (sampleHook 3) deliveringOne).
  - reflexivity.
  - exact deliveringOne_reachable.
Defined.

(** X2. The channel never holds more payloads than the capacity it was
    made with. *)
Theorem buffer_within_capacity ps graylogAddress retries extra httpClient
    h0 s :
  NewGraylogHook ps graylogAddress retries extra httpClient = Ok h0 →
  rtc step (start h0) s →
  Z.of_nat (length (chan.queue (GraylogHook.buf (hook s))))
    ≤ Z.max 0 (bufSize ps).
Proof.
  intros (host & Hhost & ->)%NewGraylogHook_Ok Hsteps.
  pose proof (sameSettings_steps _ _ _ (sameSettings_refl _) Hsteps)
    as (_ & _ & _ & _ & _ & _ & Hcap).
  simpl in Hcap.
  rewrite <- Hcap. eapply queue_bounded_steps; [|exact Hsteps].
  simpl. lia.
Qed.

Lemma buffer_within_capacity_witness :
  NewGraylogHook sampleProcess "http://graylog.sdc.com:12201/gelf" 3
    {[ "env" := VString "prod" ]} None = Ok (sampleHook 3) ∧
  rtc step (start (sampleHook 3)) afterOneFire ∧
  Z.of_nat (length (chan.queue (GraylogHook.buf (hook afterOneFire))))
    ≤ Z.max 0 (bufSize sampleProcess).
Proof.
  split; [reflexivity|]. split; [exact afterOneFire_reachable|].
  apply (buffer_within_capacity sampleProcess
           "http://graylog.sdc.com:12201/gelf" 3
           {[ "env" := VString "prod" ]} None (sampleHook 3) afterOneFire).
  - reflexivity.
  - exact afterOneFire_reachable.
Defined.

(** X3. Payloads are completed in the order in which [Fire] put them on
    the channel: at any time the completed payloads are the first ones of
    the accepted payloads, and the next ones are the payload in
    [sendEntry] and then the queued ones. *)
Theorem deliveries_in_Fire_order ps graylogAddress retries extra httpClient
    h0 s :
  NewGraylogHook ps graylogAddress retries extra httpClient = Ok h0 →
  rtc step (start h0) s →
  completed s `prefix_of` accepted s ∧
  accepted s =
    completed s ++ option_list (worker s)
      ++ chan.queue (GraylogHook.buf (hook s)).
Proof.
  intros [Hw Hq]%NewGraylogHook_start Hsteps.
  destruct (accounted_reachable h0 s Hw Hq Hsteps) as [_ Hlist].
  split; [|done]. rewrite Hlist. by apply prefix_app_r.
Qed.

Lemma deliveries_in_Fire_order_witness :
  NewGraylogHook sampleProcess "http://graylog.sdc.com:12201/gelf" 3
    {[ "env" := VString "prod" ]} None = Ok (sampleHook 3) ∧
  rtc step (start (sampleHook 3)) deliveringOne ∧
  completed deliveringOne `prefix_of` accepted deliveringOne ∧
  accepted deliveringOne =
    completed deliveringOne ++ option_list (worker deliveringOne)
      ++ chan.queue (GraylogHook.buf (hook deliveringOne)).
Proof.
  split; [reflexivity|]. split; [exact deliveringOne_reachable|].
  apply (deliveries_in_Fire_order sampleProcess
           "http://graylog.sdc.com:12201/gelf" 3
           {[ "env" := VString "prod" ]} None (sampleHook 3) deliveringOne).
  - reflexivity.
  - exact deliveringOne_reachable.
Defined.

(** X4. When [Flush] can return nothing is under way: no call of [Fire]
    waits at the channel, the channel is empty, the goroutine running
    [fire] is idle, and every accepted payload is completed. *)
Theorem Flush_means_nothing_pending ps graylogAddress retries extra
    httpClient h0 s :
  NewGraylogHook ps graylogAddress retries extra httpClient = Ok h0 →
  rtc step (start h0) s →
  Flush (hook s) = true →
  sending s = [] ∧
  chan.queue (GraylogHook.buf (hook s)) = [] ∧
  worker s = None ∧
  completed s = accepted s.
Proof.
  intros [Hw Hq]%NewGraylogHook_start Hsteps HF.
  destruct (accounted_reachable h0 s Hw Hq Hsteps) as [Hwg Hlist].
  unfold Flush, sync.WaitReturns in HF. apply Z.eqb_eq in HF.
  rewrite HF in Hwg. unfold pending in Hwg.
  rewrite !length_app in Hwg.
  destruct (sending s); simpl in Hwg; [|lia].
  destruct (chan.queue (GraylogHook.buf (hook s))); simpl in Hwg; [|lia].
  destruct (worker s); simpl in Hwg; [lia|].
  simpl in Hlist. by rewrite app_nil_r in Hlist.
Qed.

Lemma Flush_means_nothing_pending_witness :
  NewGraylogHook sampleProcess "http://graylog.sdc.com:12201/gelf" 3
    {[ "env" := VString "prod" ]} None = Ok (sampleHook 3) ∧
  rtc step (start (sampleHook 3)) afterDelivery ∧
  Flush (hook afterDelivery) = true ∧
  sending afterDelivery = [] ∧
  chan.queue (GraylogHook.buf (hook afterDelivery)) = [] ∧
  worker afterDelivery = None ∧
  completed afterDelivery = accepted afterDelivery.
Proof.
  split; [reflexivity|]. split; [exact afterDelivery_reachable|].
  split; [reflexivity|].
  apply (Flush_means_nothing_pending sampleProcess
           "http://graylog.sdc.com:12201/gelf" 3
           {[ "env" := VString "prod" ]} None (sampleHook 3) afterDelivery).
  - reflexivity.
  - exact afterDelivery_reachable.
  - reflexivity.
Defined.



(** ** Every run of [sendEntry] *)

Lemma slept_app tr1 tr2 : slept (tr1 ++ tr2) = slept tr1 + slept tr2.
Proof.
  induction tr1 as [|e tr1 IH]; simpl; [done|].
  destruct e; rewrite ?IH; lia.
Qed.

Lemma slept_blocks (n : nat) block :
  slept (concat (replicate n block)) = Z.of_nat n * slept block.
Proof.
  induction n as [|n IH]; [done|].
  simpl concat. rewrite slept_app, IH. lia.
Qed.

Lemma sends_app tr1 tr2 : sends (tr1 ++ tr2) = (sends tr1 + sends tr2)%nat.
Proof. unfold sends. by rewrite filter_app, length_app. Qed.

Lemma sends_blocks (n : nat) block :
  sends (concat (replicate n block)) = (n * sends block)%nat.
Proof.
  induction n as [|n IH]; [done|].
  simpl concat. rewrite sends_app, IH. lia.
Qed.


Section EveryRun.
Context (net : http.Net) (hook : GraylogHook.t) (messageBytes : payload).

Lemma NewRequest_Some reqPost :
  http.NewRequest net "POST" (GraylogHook.graylogAddress hook) messageBytes
  = Some reqPost →
  reqPost = postRequest hook messageBytes ∧
  http.urlParses net (GraylogHook.graylogAddress hook) = true.
Proof.
  unfold http.NewRequest. destruct (http.urlParses _ _); [|done].
  by intros [= <-].
Qed.

Lemma failedAttempt_slept :
  slept (failedAttempt net hook messageBytes) = 10 * time.Second.
Proof. unfold failedAttempt. by case_match. Qed.



(** The loop from iteration [i] with [n] iterations to go: [k] failed
    attempts, and then either the count is used up or iteration [i + k]
    gets a response. *)
Lemma retryLoop_run (n : nat) i fr :
  Z.to_nat (GraylogHook.retries hook - i) = n →
  ∃ k : nat,
    (∀ j, i ≤ j < i + Z.of_nat k → attemptFails net hook messageBytes j) ∧
    ((k = n ∧
      retryLoop net hook messageBytes i fr
      = emit (concat (replicate k (failedAttempt net hook messageBytes))) fr)
     ∨
     ((k < n)%nat ∧
      ∃ code,
        http.urlParses net (GraylogHook.graylogAddress hook) = true ∧
        http.Do net (GraylogHook.httpClient hook) (i + Z.of_nat k)
          (postRequest hook messageBytes) = http.Response code ∧
        retryLoop net hook messageBytes i fr
        = defer DeferBodyClose
            (emit
               (concat (replicate k (failedAttempt net hook messageBytes))
                ++ [EvNewRequest (GraylogHook.graylogAddress hook) true;
                    EvDo (postRequest hook messageBytes)
                      (http.Response code)]) fr))).
Proof.
  revert i fr. induction n as [|n IH]; intros i fr Hn.
  - exists 0%nat. split; [intros; lia|]. left. split; [done|].
    rewrite retryLoop_exit by lia. simpl. by rewrite emit_nil.
  - rewrite retryLoop_step.
    destruct (decide (i < GraylogHook.retries hook)) as [_|]; [|lia].
    assert (∀ k : nat,
      attemptFails net hook messageBytes i →
      (∀ j, i + 1 ≤ j < i + 1 + Z.of_nat k →
            attemptFails net hook messageBytes j) →
      ∀ j, i ≤ j < i + Z.of_nat (S k) →
           attemptFails net hook messageBytes j) as Hext.
    { intros k Hi Hrest j Hj. destruct (decide (j = i)) as [->|]; [done|].
      apply Hrest. lia. }
    destruct (http.NewRequest _ _ _ _) as [reqPost|] eqn:Hreq.
    + pose proof Hreq as [-> Hurl]%NewRequest_Some.
      destruct (http.Do _ _ i _) as [|code] eqn:Hdo.
      * destruct (IH (i + 1)
                    (emit [EvNewRequest (GraylogHook.graylogAddress hook) true;
                           EvDo (postRequest hook messageBytes)
                             http.TransportError;
                           EvSleep (10 * time.Second)] fr))
          as (k & Hfail & Hk); [lia|].
        exists (S k). split.
        { apply Hext; [|done]. unfold attemptFails. by rewrite Hreq. }
        simpl replicate. simpl concat. unfold failedAttempt at 1 3.
        rewrite Hreq.
        destruct Hk as [[-> Hk]|(Hlt & code & ? & Hdo' & Hk)].
        -- left. split; [done|]. by rewrite Hk, emit_emit.
        -- right. split; [lia|]. exists code. split; [done|]. split.
           { rewrite <- Hdo'. f_equal. lia. }
           rewrite Hk, emit_emit. by rewrite app_assoc.
      * exists 0%nat. split; [intros; lia|]. right. split; [lia|].
        exists code. split; [done|]. split; [by rewrite Z.add_0_r|done].
    + destruct (IH (i + 1)
                  (emit [EvNewRequest (GraylogHook.graylogAddress hook) false;
                         EvSleep (10 * time.Second)] fr))
        as (k & Hfail & Hk); [lia|].
      exists (S k). split.
      { apply Hext; [|done]. unfold attemptFails. by rewrite Hreq. }
      simpl replicate. simpl concat. unfold failedAttempt at 1 3.
      rewrite Hreq.
      destruct Hk as [[-> Hk]|(Hlt & code & ? & Hdo' & Hk)].
      * left. split; [done|]. by rewrite Hk, emit_emit.
      * right. split; [lia|]. exists code. split; [done|]. split.
        { rewrite <- Hdo'. f_equal. lia. }
        rewrite Hk, emit_emit. by rewrite app_assoc.
Qed.

(** A run of [sendEntry] on a counted payload. *)
Lemma sendEntry_run :
  0 < GraylogHook.wg hook →
  ∃ (k : nat) tr,
    sendEntry net hook messageBytes
    = Some (GraylogHook.set_wg (GraylogHook.wg hook - 1) hook, tr) ∧
    (∀ j, 0 ≤ j < Z.of_nat k → attemptFails net hook messageBytes j) ∧
    ((k = Z.to_nat (GraylogHook.retries hook) ∧
      tr = concat (replicate k (failedAttempt net hook messageBytes)))
     ∨
     ((k < Z.to_nat (GraylogHook.retries hook))%nat ∧
      ∃ code,
        http.urlParses net (GraylogHook.graylogAddress hook) = true ∧
        http.Do net (GraylogHook.httpClient hook) (Z.of_nat k)
          (postRequest hook messageBytes) = http.Response code ∧
        tr = concat (replicate k (failedAttempt net hook messageBytes))
             ++ answeredAttempt hook (postRequest hook messageBytes) code)).
Proof.
  intros Hwg. unfold sendEntry.
  destruct (retryLoop_run (Z.to_nat (GraylogHook.retries hook)) 0
              {| trace := []; defers := [DeferWgDone] |})
    as (k & Hfail & Hk); [f_equal; lia|].
  exists k.
  destruct Hk as [[-> Hk]|(Hlt & code & Hurl & Hdo & Hk)]; rewrite Hk; simpl;
    rewrite Done_Some by done; simpl; eexists; (split; [reflexivity|]);
    (split; [done|]).
  - by left.
  - right. split; [done|]. exists code. split; [done|]. split; [done|].
    unfold answeredAttempt. by rewrite <- app_assoc.
Qed.

End EveryRun.

(** X6. Whatever the network does, a run of [sendEntry] on a counted
    payload is some number [k] of failed attempts, each followed by its
    ten-second pause, and then either nothing more, the retry count being
    used up, or one attempt that gets a response, with [k] below the
    retry count.  The hook is left as it was but for the counter, one
    lower. *)
Theorem sendEntry_fails_then_answers net hook messageBytes :
  0 < GraylogHook.wg hook →
  ∃ (k : nat) tr,
    sendEntry net hook messageBytes
    = Some (GraylogHook.set_wg (GraylogHook.wg hook - 1) hook, tr) ∧
    (∀ j, 0 ≤ j < Z.of_nat k → attemptFails net hook messageBytes j) ∧
    slept tr = Z.of_nat k * (10 * time.Second) ∧
    ((k = Z.to_nat (GraylogHook.retries hook) ∧
      tr = concat (replicate k (failedAttempt net hook messageBytes)) ∧
      attempts tr = k)
     ∨
     (Z.of_nat k < GraylogHook.retries hook ∧
      ∃ code,
        http.Do net (GraylogHook.httpClient hook) (Z.of_nat k)
          (postRequest hook messageBytes) = http.Response code ∧
        tr = concat (replicate k (failedAttempt net hook messageBytes))
             ++ answeredAttempt hook (postRequest hook messageBytes) code ∧
        attempts tr = S k)).
Proof.
  intros Hwg.
  destruct (sendEntry_run net hook messageBytes Hwg)
    as (k & tr & Hrun & Hfail & Hk).
  exists k, tr. split; [done|]. split; [done|].
  destruct Hk as [[Hkn ->]|(Hlt & code & Hurl & Hdo & ->)].
  - split.
    + by rewrite slept_blocks, failedAttempt_slept.
    + left. split; [done|]. split; [done|].
      apply attempts_blocks, failedAttempt_attempts.
  - split.
    + rewrite slept_app, slept_blocks, failedAttempt_slept. simpl. lia.
    + right. split; [lia|]. exists code. split; [done|]. split; [done|].
      rewrite attempts_app, attempts_blocks by apply failedAttempt_attempts.
      unfold attempts. simpl. lia.
Qed.

Lemma sendEntry_fails_then_answers_witness :
  0 < GraylogHook.wg (countedHook 3) ∧
  ∃ (k : nat) tr,
    sendEntry netSecondTry (countedHook 3) samplePayload
    = Some (GraylogHook.set_wg (GraylogHook.wg (countedHook 3) - 1)
              (countedHook 3), tr) ∧
    (∀ j, 0 ≤ j < Z.of_nat k →
          attemptFails netSecondTry (countedHook 3) samplePayload j) ∧
    slept tr = Z.of_nat k * (10 * time.Second) ∧
    ((k = Z.to_nat (GraylogHook.retries (countedHook 3)) ∧
      tr = concat (replicate k
                     (failedAttempt netSecondTry (countedHook 3)
                        samplePayload)) ∧
      attempts tr = k)
     ∨
     (Z.of_nat k < GraylogHook.retries (countedHook 3) ∧
      ∃ code,
        http.Do netSecondTry (GraylogHook.httpClient (countedHook 3))
          (Z.of_nat k) (postRequest (countedHook 3) samplePayload)
        = http.Response code ∧
        tr = concat (replicate k
                       (failedAttempt netSecondTry (countedHook 3)
                          samplePayload))
             ++ answeredAttempt (countedHook 3)
                  (postRequest (countedHook 3) samplePayload) code ∧
        attempts tr = S k)).
Proof.
  split; [reflexivity|].
  apply (sendEntry_fails_then_answers netSecondTry (countedHook 3)
           samplePayload).
  reflexivity.
Defined.




(** X8. With an address that does not parse as a URL no request is ever
    sent: every attempt ends at [http.NewRequest], and [sendEntry] spends
    the whole retry count, ten seconds each, before it gives the payload
    up. *)
Theorem sendEntry_bad_address net hook messageBytes :
  http.urlParses net (GraylogHook.graylogAddress hook) = false →
  0 ≤ GraylogHook.retries hook →
  0 < GraylogHook.wg hook →
  ∃ tr,
    sendEntry net hook messageBytes
    = Some (GraylogHook.set_wg (GraylogHook.wg hook - 1) hook, tr) ∧
    tr = concat (replicate (Z.to_nat (GraylogHook.retries hook))
                   [EvNewRequest (GraylogHook.graylogAddress hook) false;
                    EvSleep (10 * time.Second)]) ∧
    sends tr = 0%nat ∧
    slept tr = GraylogHook.retries hook * (10 * time.Second).
Proof.
  intros Hurl Hr Hwg.
  assert (http.NewRequest net "POST" (GraylogHook.graylogAddress hook)
            messageBytes = None) as Hreq.
  { unfold http.NewRequest. by rewrite Hurl. }
  assert (failedAttempt net hook messageBytes
          = [EvNewRequest (GraylogHook.graylogAddress hook) false;
             EvSleep (10 * time.Second)]) as Hblock.
  { unfold failedAttempt. by rewrite Hreq. }
  eexists. split; [|split; [reflexivity|]].
  - unfold sendEntry.
    rewrite (retryLoop_failures net hook messageBytes
               (Z.to_nat (GraylogHook.retries hook)) 0).
    + rewrite retryLoop_exit by lia. simpl. rewrite Done_Some by done.
      simpl. by rewrite Hblock.
    + lia.
    + intros j _. unfold attemptFails. by rewrite Hreq.
  - split.
    + by rewrite sends_blocks, Nat.mul_0_r.
    + rewrite slept_blocks.
      assert (slept [EvNewRequest (GraylogHook.graylogAddress hook) false;
                     EvSleep (10 * time.Second)] = 10 * time.Second) as ->
        by reflexivity.
      by rewrite Z2Nat.id.
Qed.

Lemma sendEntry_bad_address_witness :
  http.urlParses netBadAddress (GraylogHook.graylogAddress (countedHook 3))
  = false ∧
  0 ≤ GraylogHook.retries (countedHook 3) ∧
  0 < GraylogHook.wg (countedHook 3) ∧
  ∃ tr,
    sendEntry netBadAddress (countedHook 3) samplePayload
    = Some (GraylogHook.set_wg (GraylogHook.wg (countedHook 3) - 1)
              (countedHook 3), tr) ∧
    tr = concat (replicate (Z.to_nat (GraylogHook.retries (countedHook 3)))
                   [EvNewRequest (GraylogHook.graylogAddress (countedHook 3))
                      false;
                    EvSleep (10 * time.Second)]) ∧
    sends tr = 0%nat ∧
    slept tr = GraylogHook.retries (countedHook 3) * (10 * time.Second).
Proof.
  split; [reflexivity|]. split; [simpl; lia|]. split; [reflexivity|].
  apply (sendEntry_bad_address netBadAddress (countedHook 3) samplePayload).
  - reflexivity.
  - simpl. lia.
  - reflexivity.
Defined.

(** ** More on what [Fire] hands over *)







Lemma firedPayload_members now hook entry o :
  firedPayload (Fire now hook entry) = Some (JObj o) →
  ∃ ext fields,
    json.omitemptyMap (GraylogHook.extra hook) = Some ext ∧
    json.omitemptyMap (logrus.Entry.Data entry) = Some fields ∧
    o !! "version" = Some (JStr "1.0") ∧
    o !! "host" = json.omitemptyString (GraylogHook.hostname hook) ∧
    o !! "short_message"
    = json.omitemptyString (logrus.Entry.Message entry) ∧
    o !! "full_message" = None ∧
    o !! "timestamp" = Some (JTime now) ∧
    o !! "level" = json.omitemptyInt (setLevel (logrus.Entry.Level entry)) ∧
    o !! "facility" = json.omitemptyString (GraylogHook.facility hook) ∧
    o !! "file" = None ∧
    o !! "line" = None ∧
    o !! "extra" = ext ∧
    o !! "log_fields" = fields.
Proof.
  intros [HM _]%firedPayload_Marshal.
  apply Marshal_inv in HM
    as (o' & ext & fields & [= <-] & Hext & Hfields & _ & Hv & Hh & Hs & Hf
          & Ht & Hl & Hfa & Hfi & Hli & He & Hlf & _).
  exists ext, fields. simpl in *. done.
Qed.

(** X11. What a payload says about the hook does not depend on the entry:
    two calls of [Fire] on hooks with the same settings, for any two
    entries at any two times, give payloads with the same version, host,
    facility and extra members, and neither has a file, line or
    full_message member.  The version is always "1.0". *)
Theorem Fire_hook_members_fixed now1 now2 hook1 hook2 entry1 entry2 o1 o2 :
  sameSettings hook1 hook2 →
  firedPayload (Fire now1 hook1 entry1) = Some (JObj o1) →
  firedPayload (Fire now2 hook2 entry2) = Some (JObj o2) →
  o1 !! "version" = Some (JStr "1.0") ∧
  o2 !! "version" = Some (JStr "1.0") ∧
  o1 !! "host" = o2 !! "host" ∧
  o1 !! "facility" = o2 !! "facility" ∧
  o1 !! "extra" = o2 !! "extra" ∧
  o1 !! "file" = None ∧ o2 !! "file" = None ∧
  o1 !! "line" = None ∧ o2 !! "line" = None ∧
  o1 !! "full_message" = None ∧ o2 !! "full_message" = None.
Proof.
  intros (_ & Hhost & Hfac & Hextra & _)
    (ext1 & f1 & Hext1 & _ & Hv1 & Hh1 & _ & Hfu1 & _ & _ & Hfa1 & Hfi1
       & Hli1 & He1 & _)%firedPayload_members
    (ext2 & f2 & Hext2 & _ & Hv2 & Hh2 & _ & Hfu2 & _ & _ & Hfa2 & Hfi2
       & Hli2 & He2 & _)%firedPayload_members.
  rewrite Hextra, Hext1 in Hext2. injection Hext2 as <-.
  rewrite Hh1, Hh2, Hfa1, Hfa2, He1, He2, Hhost, Hfac. done.
Qed.

Lemma Fire_hook_members_fixed_witness :
  sameSettings (sampleHook 3) (hook afterOneFire) ∧
  firedPayload (Fire sampleNow (sampleHook 3) sampleEntry)
  = Some samplePayload ∧
  firedPayload (Fire 0 (hook afterOneFire) bareEntry) = Some barePayload ∧
  ∃ o1 o2 : gmap string JSON,
    samplePayload = JObj o1 ∧
    barePayload = JObj o2 ∧
    o1 !! "version" = Some (JStr "1.0") ∧
    o2 !! "version" = Some (JStr "1.0") ∧
    o1 !! "host" = o2 !! "host" ∧
    o1 !! "facility" = o2 !! "facility" ∧
    o1 !! "extra" = o2 !! "extra" ∧
    o1 !! "file" = None ∧ o2 !! "file" = None ∧
    o1 !! "line" = None ∧ o2 !! "line" = None ∧
    o1 !! "full_message" = None ∧ o2 !! "full_message" = None.
Proof.
  assert (sameSettings (sampleHook 3) (hook afterOneFire)) as Hsame
    by (repeat split; reflexivity).
  split; [exact Hsame|]. split; [vm_compute; reflexivity|].
  split; [vm_compute; reflexivity|].
  eexists _, _. split; [reflexivity|]. split; [reflexivity|].
  apply (Fire_hook_members_fixed sampleNow 0 (sampleHook 3)
           (hook afterOneFire) sampleEntry bareEntry).
  - exact Hsame.
  - vm_compute; reflexivity.
  - vm_compute; reflexivity.
Defined.

Lemma setLevel_in_range l : 0 ≤ l < 2 ^ 31 → setLevel l = l.
Proof.
  intros Hl. unfold setLevel.
  rewrite Z.mod_small by lia.
  destruct (Z.ltb_spec l (2 ^ 31)); [done|lia].
Qed.

(** X12. The level member of a payload is the number of the entry's
    logrus level, and an entry at the panic level, whose number is zero,
    is sent without a level member. *)
Theorem Fire_level_member now hook entry o :
  firedPayload (Fire now hook entry) = Some (JObj o) →
  0 ≤ logrus.Entry.Level entry < 2 ^ 31 →
  (logrus.Entry.Level entry = logrus.PanicLevel → o !! "level" = None) ∧
  (logrus.Entry.Level entry ≠ logrus.PanicLevel →
   o !! "level" = Some (JNum (logrus.Entry.Level entry))).
Proof.
  intros (ext & f & _ & _ & _ & _ & _ & _ & _ & Hl & _)%firedPayload_members
    Hrange.
  rewrite Hl, setLevel_in_range by done. unfold json.omitemptyInt.
  unfold logrus.PanicLevel. split; intros ?; case_decide; done.
Qed.

Lemma Fire_level_member_witness :
  firedPayload (Fire sampleNow (sampleHook 3) sampleEntry)
  = Some samplePayload ∧
  0 ≤ logrus.Entry.Level sampleEntry < 2 ^ 31 ∧
  ∃ o,
    samplePayload = JObj o ∧
    (logrus.Entry.Level sampleEntry = logrus.PanicLevel →
     o !! "level" = None) ∧
    (logrus.Entry.Level sampleEntry ≠ logrus.PanicLevel →
     o !! "level" = Some (JNum (logrus.Entry.Level sampleEntry))).
Proof.
  split; [vm_compute; reflexivity|].
  split; [vm_compute; split; [discriminate|reflexivity]|].
  eexists. split; [reflexivity|].
  apply (Fire_level_member sampleNow (sampleHook 3) sampleEntry).
  - vm_compute; reflexivity.
  - vm_compute. split; [discriminate|reflexivity].
Defined.



(** ** More on [Levels] *)

Lemma filter_Forall_id {A} (P : A → Prop) `{∀ x, Decision (P x)} (l : list A) :
  Forall P l → filter P l = l.
Proof.
  induction 1 as [|x l Hx _ IH]; [done|].
  by rewrite filter_cons_True, IH.
Qed.

(** X14. Raising the threshold of a hook never takes a level away: the
    levels of a hook are among those of any hook with a higher or equal
    [Level]. *)
Theorem Levels_monotone hook1 hook2 :
  GraylogHook.Level hook1 ≤ GraylogHook.Level hook2 →
  Levels hook1 ⊆ Levels hook2.
Proof.
  intros Hle level. unfold Levels. rewrite !LevelsLoop_filter. simpl app.
  rewrite !list_elem_of_filter. intros [? ?]. split; [lia|done].
Qed.

Lemma Levels_monotone_witness :
  GraylogHook.Level (withLevel logrus.ErrorLevel (sampleHook 3))
  ≤ GraylogHook.Level (sampleHook 3) ∧
  Levels (withLevel logrus.ErrorLevel (sampleHook 3)) ⊆ Levels (sampleHook 3).
Proof.
  split; [vm_compute; discriminate|].
  apply (Levels_monotone (withLevel logrus.ErrorLevel (sampleHook 3))
           (sampleHook 3)).
  vm_compute; discriminate.
Defined.

(** X15. A hook is told about panics whatever its [Level] (a [uint32] is
    never negative), and it is told about every level of logrus exactly
    when its [Level] is at least the trace level. *)
Theorem Levels_panic_and_all hook :
  (logrus.PanicLevel ∈ Levels hook ↔ 0 ≤ GraylogHook.Level hook) ∧
  (Levels hook = logrus.AllLevels ↔
   logrus.TraceLevel ≤ GraylogHook.Level hook).
Proof.
  unfold Levels. rewrite LevelsLoop_filter. simpl app. split.
  - rewrite list_elem_of_filter. unfold logrus.PanicLevel.
    split; [by intros [? _]|]. intros ?. split; [done|].
    unfold logrus.AllLevels, logrus.PanicLevel. set_solver.
  - split.
    + intros Heq.
      assert (logrus.TraceLevel
                ∈ filter (λ level, level ≤ GraylogHook.Level hook)
                    logrus.AllLevels) as Hin.
      { rewrite Heq. unfold logrus.AllLevels. set_solver. }
      by apply list_elem_of_filter in Hin as [? _].
    + intros Hle. apply filter_Forall_id.
      unfold logrus.TraceLevel in Hle.
      repeat (apply Forall_cons; split;
              [unfold logrus.PanicLevel, logrus.FatalLevel, logrus.ErrorLevel,
                 logrus.WarnLevel, logrus.InfoLevel, logrus.DebugLevel,
                 logrus.TraceLevel; lia|]).
      apply Forall_nil_2.
Qed.

(** ** From construction to the wire *)

Lemma Base_nonempty p : path.Base p ≠ "".
Proof.
  unfold path.Base. case_decide; [done|]. case_decide as Hlast; [done|].
  destruct (rev _) as [|c l]; [done|]. done.
Qed.

Lemma hook_configuration {ps graylogAddress retries extra httpClient h0 s} :
  NewGraylogHook ps graylogAddress retries extra httpClient = Ok h0 →
  rtc step (start h0) s →
  osHostname ps = Ok (GraylogHook.hostname (hook s)) ∧
  GraylogHook.facility (hook s) = path.Base (osArgs0 ps).
Proof.
  intros (host & Hhost & ->)%NewGraylogHook_Ok Hsteps.
  pose proof (sameSettings_steps _ _ _ (sameSettings_refl _) Hsteps)
    as (_ & -> & -> & _).
  done.
Qed.

(** X16. Every payload of a hook made by [NewGraylogHook] names the
    program: its facility member is the base name of [os.Args[0]], which
    is never empty, so the member is never left out; its host member is
    the host name read at construction, left out only when that name is
    empty. *)
Theorem payload_names_program_and_host ps graylogAddress retries extra
    httpClient h0 s now entry o :
  NewGraylogHook ps graylogAddress retries extra httpClient = Ok h0 →
  rtc step (start h0) s →
  firedPayload (Fire now (hook s) entry) = Some (JObj o) →
  o !! "facility" = Some (JStr (path.Base (osArgs0 ps))) ∧
  path.Base (osArgs0 ps) ≠ "" ∧
  ∃ host,
    osHostname ps = Ok host ∧
    o !! "host" = (if decide (host = "") then None else Some (JStr host)).
Proof.
  intros Hnew Hsteps Hp.
  destruct (hook_configuration Hnew Hsteps) as (Hhost & Hfac).
  apply firedPayload_members in Hp
    as (ext & f & _ & _ & _ & Hh & _ & _ & _ & _ & Hfa & _).
  rewrite Hfa, Hfac. unfold json.omitemptyString.
  rewrite decide_False by apply Base_nonempty.
  split; [done|]. split; [apply Base_nonempty|].
  exists (GraylogHook.hostname (hook s)). split; [done|]. by rewrite Hh.
Qed.

Lemma payload_names_program_and_host_witness :
  NewGraylogHook sampleProcess "http://graylog.sdc.com:12201/gelf" 3
    {[ "env" := VString "prod" ]} None = Ok (sampleHook 3) ∧
  rtc step (start (sampleHook 3)) afterOneFire ∧
  firedPayload (Fire 0 (hook afterOneFire) bareEntry) = Some barePayload ∧
  ∃ o : gmap string JSON,
    barePayload = JObj o ∧
    o !! "facility" = Some (JStr (path.Base (osArgs0 sampleProcess))) ∧
    path.Base (osArgs0 sampleProcess) ≠ "" ∧
    ∃ host,
      osHostname sampleProcess = Ok host ∧
      o !! "host" = (if decide (host = "") then None else Some (JStr host)).
Proof.
  split; [reflexivity|]. split; [exact afterOneFire_reachable|].
  split; [vm_compute; reflexivity|].
  eexists. split; [reflexivity|].
  apply (payload_names_program_and_host sampleProcess
           "http://graylog.sdc.com:12201/gelf" 3
           {[ "env" := VString "prod" ]} None (sampleHook 3) afterOneFire 0
           bareEntry).
  - reflexivity.
  - exact afterOneFire_reachable.
  - vm_compute; reflexivity.
Defined.








(** ** No deadlock *)

(** What is left to do: two for a payload that waits, in the channel or
    at it, one for the payload in [sendEntry]. *)
Lemma drains_everything (n : nat) s :
  accounted s →
  (2 * length (sending s)
   + 2 * length (chan.queue (GraylogHook.buf (hook s)))
   + length (option_list (worker s)))%nat = n →
  ∃ s', rtc step s s' ∧ accounted s' ∧ sending s' = [] ∧
        GraylogHook.wg (hook s') = 0 ∧
        completed s' = accepted s' ∧
        accepted s' = accepted s ++ sending s.
Proof.
  revert s. induction (lt_wf n) as [n _ IH]. intros s Hacc Hn.
  destruct (worker s) as [p|] eqn:Hworker.
  - (* inside sendEntry: it returns *)
    destruct Hacc as [Hwg Hlist].
    destruct (sendEntry_Done netDown (hook s) p) as [tr Htr].
    { rewrite Hwg. unfold pending. rewrite Hworker. simpl. lia. }
    pose proof (step_fire_sendEntry netDown p _ tr s Hworker Htr) as Hstep.
    match type of Hstep with step _ ?t => set (s1 := t) in * end.
    assert (accounted s1) as Hacc1.
    { eapply accounted_step; [|exact Hstep]. by split. }
    destruct (IH (2 * length (sending s1)
                  + 2 * length (chan.queue (GraylogHook.buf (hook s1)))
                  + length (option_list (worker s1)))%nat) with (s := s1)
      as (s' & Hsteps & Hacc' & Hs' & Hw' & Hc' & Ha'); try done.
    { subst n. unfold s1. simpl. lia. }
    exists s'. split; [by eapply rtc_l|]. done.
  - destruct (chan.queue (GraylogHook.buf (hook s))) as [|p q] eqn:Hq.
    + destruct (sending s) as [|p after] eqn:Hsending.
      * (* nothing left *)
        exists s. destruct Hacc as [Hwg Hlist]. split; [done|].
        split; [done|]. split; [done|].
        unfold pending in Hwg. rewrite Hworker, Hq, Hsending in *.
        simpl in *. rewrite !app_nil_r in *. done.
      * (* a waiting call hands its payload to the idle goroutine *)
        pose proof (step_Fire_handoff [] p after s Hsending Hworker Hq)
          as Hstep.
        match type of Hstep with step _ ?t => set (s1 := t) in * end.
        assert (accounted s1) as Hacc1 by by eapply accounted_step.
        destruct (IH (2 * length (sending s1)
                      + 2 * length (chan.queue (GraylogHook.buf (hook s1)))
                      + length (option_list (worker s1)))%nat) with (s := s1)
          as (s' & Hsteps & Hacc' & Hs' & Hw' & Hc' & Ha'); try done.
        { subst n. unfold s1. simpl. rewrite Hq. simpl. lia. }
        exists s'. split; [by eapply rtc_l|].
        split; [done|]. split; [done|]. split; [done|]. split; [done|].
        rewrite Ha'. unfold s1. simpl. by rewrite <- app_assoc.
    + (* the goroutine takes the next payload from the channel *)
      assert (chan.recv (GraylogHook.buf (hook s))
              = Some (p, {| chan.cap := chan.cap (GraylogHook.buf (hook s));
                            chan.queue := q |})) as Hrecv.
      { unfold chan.recv. by rewrite Hq. }
      pose proof (step_fire_recv p _ s Hworker Hrecv) as Hstep.
      match type of Hstep with step _ ?t => set (s1 := t) in * end.
      assert (accounted s1) as Hacc1 by by eapply accounted_step.
      destruct (IH (2 * length (sending s1)
                    + 2 * length (chan.queue (GraylogHook.buf (hook s1)))
                    + length (option_list (worker s1)))%nat) with (s := s1)
        as (s' & Hsteps & Hacc' & Hs' & Hw' & Hc' & Ha'); try done.
      { subst n. unfold s1. simpl. lia. }
      exists s'. split; [by eapply rtc_l|]. done.
Qed.

(** X18. The hook cannot deadlock: from every state of a run there is a
    way on in which every call of [Fire] that waits at the channel
    returns, every accepted payload gets its [sendEntry], and [Flush] can
    return; the payloads accepted before stay first, and those of the
    waiting calls follow. *)
Theorem hook_can_always_drain ps graylogAddress retries extra httpClient
    h0 s :
  NewGraylogHook ps graylogAddress retries extra httpClient = Ok h0 →
  rtc step (start h0) s →
  ∃ s',
    rtc step s s' ∧
    sending s' = [] ∧
    Flush (hook s') = true ∧
    completed s' = accepted s' ∧
    accepted s' = accepted s ++ sending s.
Proof.
  intros [Hw Hq]%NewGraylogHook_start Hsteps.
  pose proof (accounted_reachable h0 s Hw Hq Hsteps) as Hacc.
  destruct (drains_everything _ s Hacc eq_refl)
    as (s' & Hsteps' & _ & Hs' & Hw' & Hc' & Ha').
  exists s'. split; [done|]. split; [done|]. split; [|done].
  unfold Flush, sync.WaitReturns. by rewrite Hw'.
Qed.

Lemma hook_can_always_drain_witness :
  NewGraylogHook sampleProcess "http://graylog.sdc.com:12201/gelf" 3
    {[ "env" := VString "prod" ]} None = Ok (sampleHook 3) ∧
  rtc step (start (sampleHook 3)) oneWaiting ∧
  ∃ s',
    rtc step oneWaiting s' ∧
    sending s' = [] ∧
    Flush (hook s') = true ∧
    completed s' = accepted s' ∧
    accepted s' = accepted oneWaiting ++ sending oneWaiting.
Proof.
  split; [reflexivity|]. split; [exact oneWaiting_reachable|].
  apply (hook_can_always_drain sampleProcess
           "http://graylog.sdc.com:12201/gelf" 3
           {[ "env" := VString "prod" ]} None (sampleHook 3) oneWaiting).
  - reflexivity.
  - exact oneWaiting_reachable.
Defined.
